(** * Cocktail catalogue API: a shallow embedding of the three HTTP controllers

    The development follows [app/controllers/httpd/*.ts] and the three model
    schemas.  The document store (MongoDB through Mongoose) is a collaborator
    of the program, not part of it: it is modelled here as three lists of
    documents in insertion order together with the handful of model methods
    the controllers call.  Every controller action is a function from a
    [World] (store contents plus the log of model calls issued so far) to a
    [Response] and the resulting [World]; the clock and the identifier of a
    new document come in through an [Env].

    A query parameter is either absent or a string.  The body of a create of
    a cocktail or of an ingredient is taken as it arrives, each field a
    [JsValue], and goes through the cast of the schema before it is
    stored.  The body of an update, and the body of a join row, are taken at
    the types the schema gives their fields: a field is either absent or a
    string (a boolean for [isAlcoholic]).

    The file has three parts: the embedding of the program, the vocabulary
    the properties are stated with, and the properties themselves. *)

From Stdlib Require Import List String Ascii ZArith NArith Bool Lia.
From Stdlib Require Import DecimalString.
From Stdlib Require Import Sorting.Sorted Sorting.Permutation.
Import ListNotations.

Local Open Scope string_scope.
Local Open Scope list_scope.

(** ** JavaScript values and truthiness *)

Inductive JsValue : Type :=
  | JUndefined
  | JNull
  | JBool (b : bool)
  | JNumber (z : Z)
  | JString (s : string)
  | JObject (rendering : string).
    (* an object or function; [rendering] is what String(...) gives *)

(** [if (v)] / [!v] of the source. *)
Definition truthy (v : JsValue) : bool :=
  match v with
  | JUndefined | JNull => false
  | JBool b => b
  | JNumber z => negb (z =? 0)%Z
  | JString s => negb (s =? "")
  | JObject _ => true
  end.

(** [typeof v === 'boolean'] *)
Definition isBoolean (v : JsValue) : bool :=
  match v with JBool _ => true | _ => false end.

(** A query-string parameter or a string-typed body field: the property is
    missing ([undefined]) or holds a string. *)
Definition Param := option string.

Definition js (p : Param) : JsValue :=
  match p with None => JUndefined | Some s => JString s end.

Definition present (p : Param) : bool := truthy (js p).

(** [String(n)] for an integer-valued number of the safe range: its decimal
    notation.  Numbers are kept as integers; a fractional number passes and
    fails the same tests of the controllers as a non-zero integer and
    differs only in its notation. *)
Definition decimal (z : Z) : string := NilZero.string_of_int (Z.to_int z).

(** The cast Mongoose applies to a value stored under a [String] path:
    [null] and [undefined] are kept as they are ([Some None]), strings,
    numbers and booleans become strings, and an array or a plain object is
    a [CastError] ([None]). *)
Definition castString (v : JsValue) : option (option string) :=
  match v with
  | JUndefined | JNull => Some None
  | JBool true => Some (Some "true")
  | JBool false => Some (Some "false")
  | JNumber z => Some (Some (decimal z))
  | JString s => Some (Some s)
  | JObject _ => None
  end.

(** ** Identifiers *)

(** A store identifier is twelve bytes; it is kept as the number its
    twenty-four hexadecimal digits denote. *)
Definition ObjectId := N.

Definition hexDigit (c : ascii) : option N :=
  let n := N_of_ascii c in
  if ((48 <=? n) && (n <=? 57))%N then Some (n - 48)%N
  else if ((97 <=? n) && (n <=? 102))%N then Some (n - 87)%N
  else if ((65 <=? n) && (n <=? 70))%N then Some (n - 55)%N
  else None.

Definition isHexChar (c : ascii) : bool :=
  match hexDigit c with Some _ => true | None => false end.

Fixpoint allHex (s : string) : bool :=
  match s with
  | EmptyString => true
  | String c s' => isHexChar c && allHex s'
  end.

Fixpoint parseHex (acc : N) (s : string) : option N :=
  match s with
  | EmptyString => Some acc
  | String c s' =>
      match hexDigit c with
      | Some d => parseHex (16 * acc + d)%N s'
      | None => None
      end
  end.

(** Modelled from the spec: [mongoose.Types.ObjectId.isValid] is library
    code and is not part of the sources.  The specification fixes the
    identifier format as a string of twenty-four hexadecimal characters, and
    that is the test taken here. *)
Definition isValid (id : string) : bool :=
  (String.length id =? 24)%nat && allHex id.

(** The cast Mongoose applies to a string used where the schema wants an
    identifier; [None] is a [CastError]. *)
Definition castObjectId (id : string) : option ObjectId :=
  if isValid id then parseHex 0 id else None.

(** The wording of the specification: a 24-hex-character string. *)
Definition Hex24 (id : string) : Prop :=
  String.length id = 24%nat /\
  Forall (fun c => In c (list_ascii_of_string "0123456789abcdefABCDEF"))
         (list_ascii_of_string id).

(** ** Documents ([app/models/*.ts]) *)

Module Cocktail.
Record t : Type := mk {
  _id : ObjectId;
  name : string;
  category : string;
  instructions : string;
  createdAt : Z;
  updatedAt : Z
}.
End Cocktail.

Module Ingredient.
Record t : Type := mk {
  _id : ObjectId;
  name : string;
  description : option string;
  isAlcoholic : bool;
  image : option string;
  createdAt : Z;
  updatedAt : Z
}.
End Ingredient.

Module CocktailIngredient.
Record t : Type := mk {
  _id : ObjectId;
  cocktailId : ObjectId;
  ingredientId : ObjectId;
  quantity : string;
  createdAt : Z;
  updatedAt : Z
}.
End CocktailIngredient.

(** A join row after [.populate('cocktailId ingredientId')]: each reference
    is replaced by the referenced document, or by [null] when there is none. *)
Record Populated : Type := mkPopulated {
  row : CocktailIngredient.t;
  cocktail : option Cocktail.t;
  ingredient : option Ingredient.t
}.

(** ** The store and the log of model calls *)

Record Store : Type := mkStore {
  cocktails : list Cocktail.t;
  ingredients : list Ingredient.t;
  cocktail_ingredients : list CocktailIngredient.t
}.

Inductive Collection : Type := Cocktails | Ingredients | CocktailIngredients.

(** One entry for every call of a model method that is awaited. *)
Inductive StoreCall : Type :=
  | Find (c : Collection)
  | FindById (c : Collection) (id : ObjectId)
  | Create (c : Collection)
  | FindByIdAndUpdate (c : Collection) (id : ObjectId)
  | FindByIdAndDelete (c : Collection) (id : ObjectId)
  | DeleteMany (c : Collection).

Record World : Type := mkWorld {
  db : Store;
  calls : list StoreCall
}.

(** What the runtime supplies to a write: the clock and the identifier the
    driver generates for a new document. *)
Record Env : Type := mkEnv {
  now : Z;
  newId : ObjectId
}.

(** ** HTTP responses *)

Inductive Body : Type :=
  | Message (message : string)
  | Failure (message error : string)
  | CocktailList (l : list Cocktail.t)
  | CocktailDoc (d : Cocktail.t)
  | IngredientList (l : list Ingredient.t)
  | IngredientDoc (d : Ingredient.t)
  | JoinList (l : list Populated)
  | JoinPopulated (d : Populated)
  | JoinDoc (d : CocktailIngredient.t).

Record Response : Type := mkResponse {
  status : Z;
  body : Body
}.

Definition ok (b : Body) : Response := mkResponse 200 b.
Definition created (b : Body) : Response := mkResponse 201 b.
Definition badRequest (b : Body) : Response := mkResponse 400 b.
Definition notFound (b : Body) : Response := mkResponse 404 b.
Definition internalServerError (b : Body) : Response := mkResponse 500 b.

(** ** The handler monad

    A controller body runs store calls in sequence, may leave early with
    [return response.x(...)], and may be interrupted by an exception of the
    driver, which the surrounding [try]/[catch] turns into a 500. *)

Inductive Outcome (A : Type) : Type :=
  | Value (a : A)
  | Return (r : Response)
  | Throw (error : string).
Arguments Value {A} a.
Arguments Return {A} r.
Arguments Throw {A} error.

Definition M (A : Type) : Type := World -> Outcome A * World.

Definition ret {A} (a : A) : M A := fun w => (Value a, w).

Definition bind {A B} (m : M A) (k : A -> M B) : M B :=
  fun w =>
    match m w with
    | (Value a, w') => k a w'
    | (Return r, w') => (Return r, w')
    | (Throw e, w') => (Throw e, w')
    end.

Definition leave {A} (r : Response) : M A := fun w => (Return r, w).
Definition throw {A} (e : string) : M A := fun w => (Throw e, w).

Notation "x <- m ;; k" := (bind m (fun x => k))
  (at level 61, m at next level, right associativity).
Notation "m ;;; k" := (bind m (fun _ => k))
  (at level 61, right associativity).

(** [try { body } catch (error) { return onError(error.message) }] *)
Definition tryCatch (body : M Response) (onError : string -> Response)
  : World -> Response * World :=
  fun w =>
    match body w with
    | (Value r, w') => (r, w')
    | (Return r, w') => (r, w')
    | (Throw e, w') => (onError e, w')
    end.

Definition logCall (c : StoreCall) : M unit :=
  fun w => (Value tt, mkWorld (db w) (calls w ++ [c])).

Definition getStore : M Store := fun w => (Value (db w), w).

Definition putStore (s : Store) : M unit :=
  fun w => (Value tt, mkWorld s (calls w)).

(** A value bound for a [{ type: String, required: true }] path of a new
    document: the cast, then the [required] validator, which refuses
    [null] and the empty string. *)
Definition requiredString (v : JsValue) : M string :=
  match castString v with
  | Some (Some s) => if s =? "" then throw "Path is required." else ret s
  | Some None => throw "Path is required."
  | None => throw "Cast to string failed"
  end.

(** A value bound for a [{ type: String }] path of a new document. *)
Definition optionalString (v : JsValue) : M (option string) :=
  match castString v with
  | Some field => ret field
  | None => throw "Cast to string failed"
  end.

(** ** Model methods (Mongoose)

    The methods below are the ones the controllers call.  A model is a
    collection of documents with an [_id]; the three models differ only in
    the collection they read and write. *)

Class Model (D : Type) : Type := {
  collection : Collection;
  docs : Store -> list D;
  setDocs : list D -> Store -> Store;
  docId : D -> ObjectId
}.

#[export] Instance CocktailModel : Model Cocktail.t := {
  collection := Cocktails;
  docs := cocktails;
  setDocs l s := mkStore l (ingredients s) (cocktail_ingredients s);
  docId := Cocktail._id
}.

#[export] Instance IngredientModel : Model Ingredient.t := {
  collection := Ingredients;
  docs := ingredients;
  setDocs l s := mkStore (cocktails s) l (cocktail_ingredients s);
  docId := Ingredient._id
}.

#[export] Instance CocktailIngredientModel : Model CocktailIngredient.t := {
  collection := CocktailIngredients;
  docs := cocktail_ingredients;
  setDocs l s := mkStore (cocktails s) (ingredients s) l;
  docId := CocktailIngredient._id
}.

(** Membership of an identifier in an [$in] / [$nin] array. *)
Definition idIn (id : ObjectId) (ids : list ObjectId) : bool :=
  existsb (N.eqb id) ids.

(** The string-to-identifier cast of a query or an update; a string that is
    not an identifier raises a [CastError]. *)
Definition cast (id : string) : M ObjectId :=
  match castObjectId id with
  | Some oid => ret oid
  | None => throw "Cast to ObjectId failed"
  end.

Section ModelMethods.
Context {D : Type} `{Model D}.

(** [Model.find(filter)] *)
Definition find (filter : D -> bool) : M (list D) :=
  logCall (Find collection) ;;;
  s <- getStore ;;
  ret (List.filter filter (docs s)).

(** [Model.find(filter).distinct(field)] *)
Definition distinct (filter : D -> bool) (field : D -> ObjectId)
  : M (list ObjectId) :=
  logCall (Find collection) ;;;
  s <- getStore ;;
  ret (nodup N.eq_dec (map field (List.filter filter (docs s)))).

(** [Model.findById(id)] *)
Definition findById (id : string) : M (option D) :=
  oid <- cast id ;;
  logCall (FindById collection oid) ;;;
  s <- getStore ;;
  ret (List.find (fun d => (docId d =? oid)%N) (docs s)).

(** Removing the one document a [findByIdAndDelete] hits. *)
Fixpoint removeFirst (p : D -> bool) (l : list D) : list D :=
  match l with
  | [] => []
  | d :: l' => if p d then l' else d :: removeFirst p l'
  end.

(** [Model.findByIdAndDelete(id)]: the deleted document, or [null]. *)
Definition findByIdAndDelete (id : string) : M (option D) :=
  oid <- cast id ;;
  logCall (FindByIdAndDelete collection oid) ;;;
  s <- getStore ;;
  let hit := fun d => (docId d =? oid)%N in
  match List.find hit (docs s) with
  | Some d => putStore (setDocs (removeFirst hit (docs s)) s) ;;; ret (Some d)
  | None => ret None
  end.

(** Replacing the one document a [findByIdAndUpdate] hits. *)
Fixpoint updateFirst (p : D -> bool) (f : D -> D) (l : list D) : list D :=
  match l with
  | [] => []
  | d :: l' => if p d then f d :: l' else d :: updateFirst p f l'
  end.

(** [Model.findByIdAndUpdate(id, update, { new: true })] with the update
    already cast to the schema: the document after the update, or [null]. *)
Definition findByIdAndUpdate (id : string) (update : D -> D) : M (option D) :=
  oid <- cast id ;;
  logCall (FindByIdAndUpdate collection oid) ;;;
  s <- getStore ;;
  let hit := fun d => (docId d =? oid)%N in
  match List.find hit (docs s) with
  | Some d =>
      putStore (setDocs (updateFirst hit update (docs s)) s) ;;;
      ret (Some (update d))
  | None => ret None
  end.

(** [Model.deleteMany(filter)] *)
Definition deleteMany (filter : D -> bool) : M unit :=
  logCall (DeleteMany collection) ;;;
  s <- getStore ;;
  putStore (setDocs (List.filter (fun d => negb (filter d)) (docs s)) s).

(** [Model.create(doc)] for a document that passes the schema. *)
Definition create (doc : D) : M D :=
  logCall (Create collection) ;;;
  s <- getStore ;;
  putStore (setDocs (docs s ++ [doc]) s) ;;;
  ret doc.

End ModelMethods.

(** [.populate('cocktailId ingredientId')] on one join row. *)
Definition populate (s : Store) (r : CocktailIngredient.t) : Populated :=
  mkPopulated r
    (List.find (fun c => (Cocktail._id c =? CocktailIngredient.cocktailId r)%N)
               (cocktails s))
    (List.find (fun i => (Ingredient._id i =? CocktailIngredient.ingredientId r)%N)
               (ingredients s)).

(** ** Query objects

    Both list actions start from [let query: any = {}] and only ever assign
    its [_id] property, each assignment replacing the previous one. *)

Inductive IdCond : Type :=
  | IdIn (ids : list ObjectId)      (* { $in: ids } *)
  | IdNin (ids : list ObjectId).    (* { $nin: ids } *)

Record Query : Type := mkQuery { q_id : option IdCond }.

Definition emptyQuery : Query := mkQuery None.

Definition setId (q : Query) (c : IdCond) : Query := mkQuery (Some c).

Definition matches (q : Query) (id : ObjectId) : bool :=
  match q_id q with
  | None => true
  | Some (IdIn ids) => idIn id ids
  | Some (IdNin ids) => negb (idIn id ids)
  end.

(** ** Ordering ([Query.sort({ [field]: 1 })])

    The store compares strings byte by byte and dates as numbers.  The sort
    is modelled as a stable insertion sort. *)

Fixpoint insertBy {A} (le : A -> A -> bool) (x : A) (l : list A) : list A :=
  match l with
  | [] => [x]
  | y :: l' => if le x y then x :: l else y :: insertBy le x l'
  end.

Definition sortBy {A} (le : A -> A -> bool) (l : list A) : list A :=
  fold_right (insertBy le) [] l.

(** Ascending order on cocktails by a path of the schema; a path no document
    has makes every pair compare equal. *)
Definition cocktailOrder (field : string) : Cocktail.t -> Cocktail.t -> bool :=
  if field =? "name" then
    fun a b => (Cocktail.name a <=? Cocktail.name b)%string
  else if field =? "category" then
    fun a b => (Cocktail.category a <=? Cocktail.category b)%string
  else if field =? "instructions" then
    fun a b => (Cocktail.instructions a <=? Cocktail.instructions b)%string
  else if field =? "createdAt" then
    fun a b => (Cocktail.createdAt a <=? Cocktail.createdAt b)%Z
  else if field =? "updatedAt" then
    fun a b => (Cocktail.updatedAt a <=? Cocktail.updatedAt b)%Z
  else if field =? "_id" then
    fun a b => (Cocktail._id a <=? Cocktail._id b)%N
  else
    fun _ _ => true.

(** A cocktail query that has been built but not yet awaited. *)
Record CocktailQuery : Type := mkCocktailQuery {
  conditions : Query;
  sortField : option string
}.

(** [await cocktailsQuery] *)
Definition exec (q : CocktailQuery) : M (list Cocktail.t) :=
  found <- find (fun c => matches (conditions q) (Cocktail._id c)) ;;
  ret (match sortField q with
       | Some field => sortBy (cocktailOrder field) found
       | None => found
       end).

(** Runs [k] when the parameter is truthy, as [if (param) { ... }] does. *)
Definition whenPresent {A} (p : Param) (k : string -> M A) (otherwise : M A)
  : M A :=
  match p with
  | Some s => if truthy (JString s) then k s else otherwise
  | None => otherwise
  end.

(** ** [CocktailsController] *)

Module CocktailsController.

(** The names a plain object literal inherits from [Object.prototype]. *)
Definition inherited : list string :=
  [ "constructor"; "hasOwnProperty"; "isPrototypeOf"; "propertyIsEnumerable";
    "toLocaleString"; "toString"; "valueOf"; "__defineGetter__";
    "__defineSetter__"; "__lookupGetter__"; "__lookupSetter__"; "__proto__" ].

(** [sortOptions[sort]] for
    [{ name: 'name', category: 'category', date: 'createdAt' }]: an own
    property, or what the prototype chain gives (a function, or the
    prototype itself for [__proto__]), or [undefined]. *)
Definition sortOptions (sort : string) : JsValue :=
  if sort =? "name" then JString "name"
  else if sort =? "category" then JString "category"
  else if sort =? "date" then JString "createdAt"
  else if sort =? "__proto__" then JObject "[object Object]"
  else if sort =? "constructor" then
    JObject "function Object() { [native code] }"
  else if existsb (String.eqb sort) inherited then
    JObject ("function " ++ sort ++ "() { [native code] }")
  else JUndefined.

(** The computed key of [{ [v]: 1 }] for a string or an object. *)
Definition propertyKey (v : JsValue) : string :=
  match v with
  | JString s => s
  | JObject rendering => rendering
  | _ => ""
  end.

Definition index (ingredient isAlcoholic sort : Param)
  : World -> Response * World :=
  tryCatch
    (let query := emptyQuery in
     (* Filtering by ingredient *)
     query <-
       whenPresent ingredient
         (fun ingredient =>
            if negb (isValid ingredient) then
              leave (badRequest (Message "Invalid ingredient ID format"))
            else
              oid <- cast ingredient ;;
              ids <- distinct
                       (fun r => (CocktailIngredient.ingredientId r =? oid)%N)
                       CocktailIngredient.cocktailId ;;
              ret (setId query (IdIn ids)))
         (ret query) ;;
     (* Filtering by alcohol content *)
     query <-
       whenPresent isAlcoholic
         (fun isAlcoholic =>
            let isAlcohol := isAlcoholic =? "true" in
            alcoholic <- distinct Ingredient.isAlcoholic Ingredient._id ;;
            cocktailIds <-
              distinct
                (fun r => idIn (CocktailIngredient.ingredientId r) alcoholic)
                CocktailIngredient.cocktailId ;;
            if isAlcohol then ret (setId query (IdIn cocktailIds))
            else ret (setId query (IdNin cocktailIds)))
         (ret query) ;;
     let cocktailsQuery := mkCocktailQuery query None in
     (* Sorting based on the provided query *)
     cocktailsQuery <-
       whenPresent sort
         (fun sort =>
            if negb (truthy (sortOptions sort)) then
              leave (badRequest (Message
                "Invalid sort parameter. Valid options are: name, category, date"))
            else
              ret (mkCocktailQuery query
                     (Some (propertyKey (sortOptions sort)))))
         (ret cocktailsQuery) ;;
     cocktails <- exec cocktailsQuery ;;
     if (List.length cocktails =? 0)%nat then
       leave (notFound (Message "No cocktails found matching the filters"))
     else
       ret (ok (CocktailList cocktails)))
    (fun error => internalServerError (Failure "Error fetching cocktails" error)).

(** [request.only(['name', 'category', 'instructions'])] as [store] reads
    it: the values of the body as they arrive, [JUndefined] for a key the
    body does not have. *)
Record Data : Type := mkData {
  name : JsValue;
  category : JsValue;
  instructions : JsValue
}.

Definition store (env : Env) (data : Data) : World -> Response * World :=
  tryCatch
    (if negb (truthy (name data)) || negb (truthy (category data))
        || negb (truthy (instructions data)) then
       leave (badRequest (Message
         "Missing required fields: name, category, instructions"))
     else
       (* Cocktail.create(data): cast and validation, then the insert *)
       name <- requiredString (name data) ;;
       category <- requiredString (category data) ;;
       instructions <- requiredString (instructions data) ;;
       cocktail <- create (Cocktail.mk (newId env) name category instructions
                             (now env) (now env)) ;;
       ret (created (CocktailDoc cocktail)))
    (fun error => internalServerError (Failure "Error creating cocktail" error)).

Definition show (id : string) : World -> Response * World :=
  tryCatch
    (if negb (isValid id) then
       leave (badRequest (Message "Invalid ID format"))
     else
       cocktail <- findById id ;;
       match cocktail with
       | None => leave (notFound (Message "Cocktail not found"))
       | Some cocktail => ret (ok (CocktailDoc cocktail))
       end)
    (fun error => internalServerError (Failure "Error fetching cocktail" error)).

(** The body of an update, at the types of the schema. *)
Record Patch : Type := mkPatch {
  newName : Param;
  newCategory : Param;
  newInstructions : Param
}.

(** The update document applied to a stored cocktail: the fields the body
    carries replace the stored ones and [updatedAt] advances. *)
Definition assign (env : Env) (p : Patch) (c : Cocktail.t) : Cocktail.t :=
  Cocktail.mk (Cocktail._id c)
    (match newName p with Some s => s | None => Cocktail.name c end)
    (match newCategory p with Some s => s | None => Cocktail.category c end)
    (match newInstructions p with
     | Some s => s | None => Cocktail.instructions c end)
    (Cocktail.createdAt c) (now env).

Definition update (env : Env) (id : string) (p : Patch)
  : World -> Response * World :=
  tryCatch
    (if negb (isValid id) then
       leave (badRequest (Message "Invalid ID format"))
     else
       cocktail <- findByIdAndUpdate id (assign env p) ;;
       match cocktail with
       | None => leave (notFound (Message "Cocktail not found"))
       | Some cocktail => ret (ok (CocktailDoc cocktail))
       end)
    (fun error => internalServerError (Failure "Error updating cocktail" error)).

Definition destroy (id : string) : World -> Response * World :=
  tryCatch
    (if negb (isValid id) then
       leave (badRequest (Message "Invalid ID format"))
     else
       cocktail <- findByIdAndDelete id ;;
       match cocktail with
       | None => leave (notFound (Message "Cocktail not found"))
       | Some cocktail =>
           deleteMany
             (fun r => (CocktailIngredient.cocktailId r
                        =? Cocktail._id cocktail)%N) ;;;
           ret (ok (Message
             "Cocktail and its ingredients were deleted successfully"))
       end)
    (fun error => internalServerError (Failure "Error deleting cocktail" error)).

End CocktailsController.

(** ** [IngredientsController] *)

Module IngredientsController.

Definition index : World -> Response * World :=
  tryCatch
    (ingredients <- find (fun _ : Ingredient.t => true) ;;
     ret (ok (IngredientList ingredients)))
    (fun error => internalServerError (Failure "Error fetching ingredients" error)).

(** [request.only(['name', 'description', 'isAlcoholic', 'image'])] as
    [store] reads it: the values of the body as they arrive, [JUndefined]
    for a key the body does not have. *)
Record Data : Type := mkData {
  name : JsValue;
  description : JsValue;
  isAlcoholic : JsValue;
  image : JsValue
}.

Definition flag (v : JsValue) : bool :=
  match v with JBool b => b | _ => false end.

Definition store (env : Env) (data : Data) : World -> Response * World :=
  tryCatch
    (if negb (truthy (name data)) || negb (truthy (description data))
        || negb (isBoolean (isAlcoholic data)) || negb (truthy (image data))
     then
       leave (badRequest (Message
         "Missing required fields: name, description, isAlcoholic, image"))
     else
       (* Ingredient.create(data): cast and validation, then the insert *)
       name <- requiredString (name data) ;;
       description <- optionalString (description data) ;;
       image <- optionalString (image data) ;;
       ingredient <- create (Ingredient.mk (newId env) name description
                               (flag (isAlcoholic data)) image
                               (now env) (now env)) ;;
       ret (created (IngredientDoc ingredient)))
    (fun error => internalServerError (Failure "Error creating ingredient" error)).

Definition show (id : string) : World -> Response * World :=
  tryCatch
    (if negb (isValid id) then
       leave (badRequest (Message "Invalid ID format"))
     else
       ingredient <- findById id ;;
       match ingredient with
       | None => leave (notFound (Message "Ingredient not found"))
       | Some ingredient => ret (ok (IngredientDoc ingredient))
       end)
    (fun error => internalServerError (Failure "Error fetching ingredient" error)).

(** The body of an update, at the types of the schema. *)
Record Patch : Type := mkPatch {
  newName : Param;
  newDescription : Param;
  newIsAlcoholic : option bool;
  newImage : Param
}.

Definition assign (env : Env) (p : Patch) (i : Ingredient.t) : Ingredient.t :=
  Ingredient.mk (Ingredient._id i)
    (match newName p with Some s => s | None => Ingredient.name i end)
    (match newDescription p with
     | Some s => Some s | None => Ingredient.description i end)
    (match newIsAlcoholic p with
     | Some b => b | None => Ingredient.isAlcoholic i end)
    (match newImage p with Some s => Some s | None => Ingredient.image i end)
    (Ingredient.createdAt i) (now env).

Definition update (env : Env) (id : string) (p : Patch)
  : World -> Response * World :=
  tryCatch
    (if negb (isValid id) then
       leave (badRequest (Message "Invalid ID format"))
     else
       ingredient <- findByIdAndUpdate id (assign env p) ;;
       match ingredient with
       | None => leave (notFound (Message "Ingredient not found"))
       | Some ingredient => ret (ok (IngredientDoc ingredient))
       end)
    (fun error => internalServerError (Failure "Error updating ingredient" error)).

Definition destroy (id : string) : World -> Response * World :=
  tryCatch
    (if negb (isValid id) then
       leave (badRequest (Message "Invalid ID format"))
     else
       ingredient <- findByIdAndDelete id ;;
       match ingredient with
       | None => leave (notFound (Message "Ingredient not found"))
       | Some ingredient =>
           deleteMany
             (fun r => (CocktailIngredient.ingredientId r
                        =? Ingredient._id ingredient)%N) ;;;
           ret (ok (Message "Ingredient deleted successfully"))
       end)
    (fun error => internalServerError (Failure "Error deleting ingredient" error)).

End IngredientsController.

(** ** [CocktailIngredientsController] *)

Module CocktailIngredientsController.

Definition index (cocktailId ingredientId : Param)
  : World -> Response * World :=
  tryCatch
    (let query := emptyQuery in
     (* Filtering by cocktail *)
     query <-
       whenPresent cocktailId
         (fun cocktailId =>
            if negb (isValid cocktailId) then
              leave (badRequest (Message "Invalid cocktail ID format"))
            else
              oid <- cast cocktailId ;;
              rows <- find
                        (fun r => (CocktailIngredient.cocktailId r =? oid)%N) ;;
              (* the documents of an [$in] on [_id] are cast to their [_id] *)
              ret (setId query (IdIn (map CocktailIngredient._id rows))))
         (ret query) ;;
     (* Filtering by ingredient *)
     query <-
       whenPresent ingredientId
         (fun ingredientId =>
            if negb (isValid ingredientId) then
              leave (badRequest (Message "Invalid ingredient ID format"))
            else
              oid <- cast ingredientId ;;
              rows <- find
                        (fun r => (CocktailIngredient.ingredientId r =? oid)%N) ;;
              ret (setId query (IdIn (map CocktailIngredient._id rows))))
         (ret query) ;;
     rows <- find (fun r => matches query (CocktailIngredient._id r)) ;;
     s <- getStore ;;
     let cocktailingredients := map (populate s) rows in
     if (List.length cocktailingredients =? 0)%nat then
       leave (notFound (Message
         "No cocktail ingredients found matching the filters"))
     else
       ret (ok (JoinList cocktailingredients)))
    (fun error =>
       internalServerError (Failure "Error fetching cocktail ingredients" error)).

(** [request.only(['cocktailId', 'ingredientId', 'quantity'])] *)
Record Data : Type := mkData {
  cocktailId : Param;
  ingredientId : Param;
  quantity : Param
}.

Definition text (p : Param) : string :=
  match p with Some s => s | None => "" end.

Definition store (env : Env) (data : Data) : World -> Response * World :=
  tryCatch
    (if negb (present (cocktailId data)) || negb (present (ingredientId data))
        || negb (present (quantity data)) then
       leave (badRequest (Message
         "Missing required fields: cocktailId, ingredientId, quantity"))
     else if negb (isValid (text (cocktailId data))) then
       leave (badRequest (Message "Invalid cocktail ID format"))
     else if negb (isValid (text (ingredientId data))) then
       leave (badRequest (Message "Invalid ingredient ID format"))
     else
       (* Check if the cocktail exists in the database *)
       cocktailExists <- findById (D := Cocktail.t) (text (cocktailId data)) ;;
       match cocktailExists with
       | None => leave (notFound (Message "Cocktail not found in database"))
       | Some _ =>
           (* Check if the ingredient exists in the database *)
           ingredientExists <-
             findById (D := Ingredient.t) (text (ingredientId data)) ;;
           match ingredientExists with
           | None =>
               leave (notFound (Message "Ingredient not found in database"))
           | Some _ =>
               cid <- cast (text (cocktailId data)) ;;
               iid <- cast (text (ingredientId data)) ;;
               cocktailIngredient <-
                 create (CocktailIngredient.mk (newId env) cid iid
                           (text (quantity data)) (now env) (now env)) ;;
               ret (created (JoinDoc cocktailIngredient))
           end
       end)
    (fun _ => internalServerError (Message "Error creating cocktail ingredient")).

Definition show (id : string) : World -> Response * World :=
  tryCatch
    (if negb (isValid id) then
       leave (badRequest (Message "Invalid ID format"))
     else
       cocktailIngredient <- findById (D := CocktailIngredient.t) id ;;
       s <- getStore ;;
       match cocktailIngredient with
       | None => leave (notFound (Message "Cocktail ingredient not found"))
       | Some r => ret (ok (JoinPopulated (populate s r)))
       end)
    (fun error =>
       internalServerError (Failure "Error fetching cocktail ingredient" error)).

(** The cast of an identifier-typed field of an update document. *)
Definition castField (p : Param) : M (option ObjectId) :=
  match p with
  | None => ret None
  | Some s => oid <- cast s ;; ret (Some oid)
  end.

Definition assign (env : Env) (newCocktail newIngredient : option ObjectId)
    (newQuantity : Param) (r : CocktailIngredient.t) : CocktailIngredient.t :=
  CocktailIngredient.mk (CocktailIngredient._id r)
    (match newCocktail with
     | Some c => c | None => CocktailIngredient.cocktailId r end)
    (match newIngredient with
     | Some i => i | None => CocktailIngredient.ingredientId r end)
    (match newQuantity with
     | Some q => q | None => CocktailIngredient.quantity r end)
    (CocktailIngredient.createdAt r) (now env).

Definition update (env : Env) (id : string) (data : Data)
  : World -> Response * World :=
  tryCatch
    (if negb (isValid id) then
       leave (badRequest (Message "Invalid ID format"))
     else
       newCocktail <- castField (cocktailId data) ;;
       newIngredient <- castField (ingredientId data) ;;
       cocktailIngredient <-
         findByIdAndUpdate id
           (assign env newCocktail newIngredient (quantity data)) ;;
       match cocktailIngredient with
       | None => leave (notFound (Message "Cocktail ingredient not found"))
       | Some r => ret (ok (JoinDoc r))
       end)
    (fun error =>
       internalServerError (Failure "Error updating cocktail ingredient" error)).

Definition destroy (id : string) : World -> Response * World :=
  tryCatch
    (if negb (isValid id) then
       leave (badRequest (Message "Invalid ID format"))
     else
       cocktailIngredient <- findByIdAndDelete (D := CocktailIngredient.t) id ;;
       match cocktailIngredient with
       | None => leave (notFound (Message "Cocktail ingredient not found"))
       | Some _ => ret (ok (Message "Cocktail ingredient deleted successfully"))
       end)
    (fun error =>
       internalServerError (Failure "Error deleting cocktail ingredient" error)).

End CocktailIngredientsController.

(** ** Sample data *)

Definition limeId : string := "60b7c7e3f4e8fa1b3c7a5392".
Definition tequilaId : string := "60b7c7e3f4e8fa1b3c7a5393".
Definition margaritaId : string := "60b7c7e3f4e8fa1b3c7a5391".
Definition mojitoId : string := "60b7c7e3f4e8fa1b3c7a5394".

Definition oid (id : string) : ObjectId :=
  match castObjectId id with Some o => o | None => 0%N end.

Definition lime : Ingredient.t :=
  Ingredient.mk (oid limeId) "Lime" (Some "A sour fruit") false
    (Some "https://example.com/images/lime.jpg") 1 1.
Definition tequila : Ingredient.t :=
  Ingredient.mk (oid tequilaId) "Tequila" (Some "Agave spirit") true
    (Some "https://example.com/images/tequila.jpg") 2 2.
Definition margarita : Cocktail.t :=
  Cocktail.mk (oid margaritaId) "Margarita" "Cocktail" "Mix" 3 3.
Definition mojito : Cocktail.t :=
  Cocktail.mk (oid mojitoId) "Mojito" "Cocktail" "Muddle" 4 4.

Definition margaritaLime : CocktailIngredient.t :=
  CocktailIngredient.mk 101%N (oid margaritaId) (oid limeId) "1 oz" 5 5.
Definition margaritaTequila : CocktailIngredient.t :=
  CocktailIngredient.mk 102%N (oid margaritaId) (oid tequilaId) "2 oz" 6 6.
Definition mojitoLime : CocktailIngredient.t :=
  CocktailIngredient.mk 103%N (oid mojitoId) (oid limeId) "half" 7 7.

Definition bar : Store :=
  mkStore [mojito; margarita] [lime; tequila]
          [margaritaLime; margaritaTequila; mojitoLime].

Definition emptyStore : Store := mkStore [] [] [].

Definition start (s : Store) : World := mkWorld s [].

Definition env0 : Env := mkEnv 100 500%N.

(** * Vocabulary of the specification

    The notions the properties below are stated with. *)

(** The wording of the specification for a mandatory string field. *)
Definition absentOrFalsy (p : Param) : Prop := p = None \/ p = Some "".



(** [textOf v s]: [v] is a truthy string, number or boolean, and [s] is the
    string it is stored as. *)
Inductive textOf : JsValue -> string -> Prop :=
  | text_string (s : string) : s <> "" -> textOf (JString s) s
  | text_number (z : Z) : z <> 0%Z -> textOf (JNumber z) (decimal z)
  | text_true : textOf (JBool true) "true".

(** An array or an object. *)
Definition isObject (v : JsValue) : Prop := exists rendering, v = JObject rendering.

(** The join rows that reference a cocktail, or an ingredient. *)
Definition rowsOfCocktail (o : ObjectId) (s : Store)
  : list CocktailIngredient.t :=
  filter (fun r => (CocktailIngredient.cocktailId r =? o)%N)
         (cocktail_ingredients s).

Definition rowsOfIngredient (o : ObjectId) (s : Store)
  : list CocktailIngredient.t :=
  filter (fun r => (CocktailIngredient.ingredientId r =? o)%N)
         (cocktail_ingredients s).

Definition cocktailExists (o : ObjectId) (s : Store) : Prop :=
  exists c, In c (cocktails s) /\ Cocktail._id c = o.

Definition ingredientExists (o : ObjectId) (s : Store) : Prop :=
  exists i, In i (ingredients s) /\ Ingredient._id i = o.

Definition joinExists (o : ObjectId) (s : Store) : Prop :=
  exists r, In r (cocktail_ingredients s) /\ CocktailIngredient._id r = o.

(** What the join list answers for a given selection of rows. *)
Definition joinListResponse (s : Store) (rows : list CocktailIngredient.t)
  : Response :=
  match rows with
  | [] => notFound (Message "No cocktail ingredients found matching the filters")
  | _ => ok (JoinList (map (populate s) rows))
  end.

(** The rows a conjunction of the two filters would select. *)
Definition rowsOfBoth (co io : ObjectId) (s : Store)
  : list CocktailIngredient.t :=
  filter (fun r => (CocktailIngredient.cocktailId r =? co)%N
                   && (CocktailIngredient.ingredientId r =? io)%N)
         (cocktail_ingredients s).

(** A cocktail is linked to an alcoholic ingredient when some join row pairs
    it with a stored ingredient whose [isAlcoholic] flag is set. *)
Definition alcoholicLinked (s : Store) (c : Cocktail.t) : Prop :=
  exists r i,
    In r (cocktail_ingredients s) /\ In i (ingredients s)
    /\ CocktailIngredient.cocktailId r = Cocktail._id c
    /\ CocktailIngredient.ingredientId r = Ingredient._id i
    /\ Ingredient.isAlcoholic i = true.

(** The cocktails a response carries (none unless it is a list). *)
Definition returned (r : Response) : list Cocktail.t :=
  match body r with
  | CocktailList l => l
  | _ => []
  end.

Definition cocktailListResponse (l : list Cocktail.t) : Response :=
  if (List.length l =? 0)%nat
  then notFound (Message "No cocktails found matching the filters")
  else ok (CocktailList l).

(** The identifiers the [isAlcoholic] branch of the list computes: first the
    distinct identifiers of the ingredients flagged alcoholic, then the
    distinct [cocktailId]s of the join rows on one of them. *)
Definition alcoholicCocktailIds (s : Store) : list ObjectId :=
  nodup N.eq_dec
    (map CocktailIngredient.cocktailId
       (filter
          (fun r => idIn (CocktailIngredient.ingredientId r)
                      (nodup N.eq_dec
                         (map Ingredient._id
                            (filter Ingredient.isAlcoholic (ingredients s)))))
          (cocktail_ingredients s))).


(** The response of [CocktailsController.index] as a function of the store
    alone, in three stages: the query the two filters leave ([None] when the
    [ingredient] filter is rejected), the sort field ([None] when the [sort]
    value is rejected), and the answer.  [index_response] below shows that
    the handler computes exactly this. *)
Definition ingredientStage (ingredient : Param) (s : Store) : option Query :=
  match ingredient with
  | None => Some emptyQuery
  | Some i =>
      if i =? "" then Some emptyQuery
      else
        match castObjectId i with
        | None => None
        | Some o =>
            Some (mkQuery (Some (IdIn
              (nodup N.eq_dec
                 (map CocktailIngredient.cocktailId (rowsOfIngredient o s))))))
        end
  end.

Definition alcoholStage (isAlcoholic : Param) (q : Query) (s : Store) : Query :=
  match isAlcoholic with
  | None => q
  | Some a =>
      if a =? "" then q
      else if a =? "true" then mkQuery (Some (IdIn (alcoholicCocktailIds s)))
      else mkQuery (Some (IdNin (alcoholicCocktailIds s)))
  end.

Definition sortStage (sort : Param) : option (option string) :=
  match sort with
  | None => Some None
  | Some s =>
      if s =? "" then Some None
      else if truthy (CocktailsController.sortOptions s) then
        Some (Some (CocktailsController.propertyKey
                      (CocktailsController.sortOptions s)))
      else None
  end.

Definition ordered (field : option string) (l : list Cocktail.t)
  : list Cocktail.t :=
  match field with
  | Some f => sortBy (cocktailOrder f) l
  | None => l
  end.

Definition indexResponse (ingredient isAlcoholic sort : Param) (s : Store)
  : Response :=
  match ingredientStage ingredient s with
  | None => badRequest (Message "Invalid ingredient ID format")
  | Some q =>
      match sortStage sort with
      | None =>
          badRequest (Message
            "Invalid sort parameter. Valid options are: name, category, date")
      | Some field =>
          cocktailListResponse
            (ordered field
               (filter (fun c => matches (alcoholStage isAlcoholic q s)
                                         (Cocktail._id c))
                       (cocktails s)))
      end
  end.

(** Referential integrity of the join collection: every row references a
    stored cocktail and a stored ingredient. *)
Definition Referential (s : Store) : Prop :=
  forall r, In r (cocktail_ingredients s) ->
    cocktailExists (CocktailIngredient.cocktailId r) s
    /\ ingredientExists (CocktailIngredient.ingredientId r) s.

(** No two documents of a collection share an identifier. *)
Definition UniqueIds (s : Store) : Prop :=
  NoDup (map Cocktail._id (cocktails s))
  /\ NoDup (map Ingredient._id (ingredients s))
  /\ NoDup (map CocktailIngredient._id (cocktail_ingredients s)).

(** Non-decreasing order of the [category] and of the [createdAt] field. *)
Definition categoryLe (a b : Cocktail.t) : Prop :=
  (Cocktail.category a <=? Cocktail.category b)%string = true.

Definition createdLe (a b : Cocktail.t) : Prop :=
  (Cocktail.createdAt a <=? Cocktail.createdAt b)%Z = true.

(** The rows a populated list carries. *)
Definition returnedRows (r : Response) : list Populated :=
  match body r with
  | JoinList l => l
  | _ => []
  end.

(** The response of [CocktailIngredientsController.index] as a function of
    the store alone: each filter in turn either is skipped, is rejected
    ([None]) or replaces the query; [join_index_response] below shows that
    the handler computes exactly this. *)
Definition joinFilterStage (p : Param)
    (field : CocktailIngredient.t -> ObjectId) (q : Query) (s : Store)
  : option Query :=
  match p with
  | None => Some q
  | Some v =>
      if v =? "" then Some q
      else
        match castObjectId v with
        | None => None
        | Some o =>
            Some (mkQuery (Some (IdIn
              (map CocktailIngredient._id
                 (filter (fun r => (field r =? o)%N)
                         (cocktail_ingredients s))))))
        end
  end.

Definition joinIndexResponse (cocktailId ingredientId : Param) (s : Store)
  : Response :=
  match joinFilterStage cocktailId CocktailIngredient.cocktailId
          emptyQuery s with
  | None => badRequest (Message "Invalid cocktail ID format")
  | Some q =>
      match joinFilterStage ingredientId CocktailIngredient.ingredientId
              q s with
      | None => badRequest (Message "Invalid ingredient ID format")
      | Some q' =>
          joinListResponse s
            (filter (fun r => matches q' (CocktailIngredient._id r))
                    (cocktail_ingredients s))
      end
  end.

(** * Properties *)

(** ** Identifiers *)

Lemma isHexChar_spec (c : ascii) :
  isHexChar c = true <->
  In c (list_ascii_of_string "0123456789abcdefABCDEF").
Proof.
  split.
  - destruct c as [[] [] [] [] [] [] [] []]; vm_compute; intro E;
      try discriminate E; clear E; tauto.
  - intro H. repeat (destruct H as [<- | H]; [reflexivity | ]). destruct H.
Qed.

Lemma allHex_spec (s : string) :
  allHex s = true <->
  Forall (fun c => In c (list_ascii_of_string "0123456789abcdefABCDEF"))
         (list_ascii_of_string s).
Proof.
  induction s as [| c s IH]; simpl.
  - split; [constructor | reflexivity].
  - rewrite andb_true_iff, isHexChar_spec, IH. split.
    + intros [Hc Hs]. now constructor.
    + intro H. inversion H; subst. now split.
Qed.

Lemma isValid_spec (id : string) : isValid id = true <-> Hex24 id.
Proof.
  unfold isValid, Hex24.
  now rewrite andb_true_iff, Nat.eqb_eq, allHex_spec.
Qed.

Lemma isValid_false (id : string) : ~ Hex24 id -> isValid id = false.
Proof.
  intro H. destruct (isValid id) eqn:E; [ | reflexivity].
  now apply isValid_spec in E.
Qed.

Lemma parseHex_total (s : string) :
  allHex s = true -> forall acc, exists n, parseHex acc s = Some n.
Proof.
  induction s as [| c s IH]; simpl; intros H acc.
  - now exists acc.
  - apply andb_true_iff in H as [Hc Hs]. unfold isHexChar in Hc.
    destruct (hexDigit c) as [d |]; [ | discriminate]. now apply IH.
Qed.

Lemma cast_defined (id : string) :
  isValid id = true -> exists o, castObjectId id = Some o.
Proof.
  intro H. unfold castObjectId. rewrite H.
  apply parseHex_total. unfold isValid in H.
  now apply andb_true_iff in H.
Qed.

Lemma cast_valid (id : string) (o : ObjectId) :
  castObjectId id = Some o -> isValid id = true.
Proof.
  unfold castObjectId. now destruct (isValid id).
Qed.

Lemma empty_not_Hex24 : ~ Hex24 "".
Proof. intros [H _]. discriminate H. Qed.

(** ** Lists *)

Lemma filter_true {A} (l : list A) : filter (fun _ => true) l = l.
Proof. induction l as [| a l IH]; simpl; [ | rewrite IH]; reflexivity. Qed.

Lemma filter_negb_filter {A} (p : A -> bool) (l : list A) :
  filter p (filter (fun a => negb (p a)) l) = [].
Proof.
  induction l as [| a l IH]; simpl; [reflexivity | ].
  destruct (p a) eqn:E; simpl; [ | rewrite E]; exact IH.
Qed.

Lemma find_exists {A} (p : A -> bool) (l : list A) :
  (exists a, In a l /\ p a = true) ->
  exists a, List.find p l = Some a /\ In a l /\ p a = true.
Proof.
  intros (a & Hin & Hp).
  destruct (List.find p l) as [b |] eqn:E.
  - exists b. apply find_some in E. tauto.
  - now rewrite (find_none _ _ E a Hin) in Hp.
Qed.

Lemma find_absent {A} (p : A -> bool) (l : list A) :
  (forall a, In a l -> p a = false) -> List.find p l = None.
Proof.
  induction l as [| a l IH]; simpl; intro H; [reflexivity | ].
  rewrite (H a (or_introl eq_refl)). apply IH. intros b Hb. apply H. now right.
Qed.

Lemma idIn_spec (id : ObjectId) (ids : list ObjectId) :
  idIn id ids = true <-> In id ids.
Proof.
  unfold idIn. rewrite existsb_exists. split.
  - intros (x & Hx & E). apply N.eqb_eq in E. now subst.
  - intro H. exists id. split; [exact H | apply N.eqb_refl].
Qed.

(** ** Running a handler *)

Ltac unfold_monad :=
  unfold tryCatch, bind, ret, leave, throw, logCall, getStore, putStore.

Ltac unfold_model :=
  unfold find, distinct, findById, findByIdAndDelete, findByIdAndUpdate,
    deleteMany, create, cast.

Ltac run := unfold_model; unfold_monad; simpl.

(** ** The ingredient list *)

(** C6, as amended: the ingredient list action takes no filter and has no
    empty-result branch; it answers 200 with every stored ingredient, in
    particular 200 with an empty array on an empty collection, and leaves
    the store as it was. *)
Theorem ingredients_index_always_ok (w : World) :
  fst (IngredientsController.index w) = ok (IngredientList (ingredients (db w)))
  /\ db (snd (IngredientsController.index w)) = db w.
Proof.
  unfold IngredientsController.index. run.
  now rewrite filter_true.
Qed.

(** C6, as stated, fails: on a store without ingredients the list action
    answers 200 with an empty array, not 404. *)
Lemma ingredients_index_empty_is_200 :
  ingredients emptyStore = []
  /\ fst (IngredientsController.index (start emptyStore))
     = ok (IngredientList [])
  /\ status (fst (IngredientsController.index (start emptyStore))) <> 404%Z.
Proof. repeat split. vm_compute. discriminate. Qed.

(** ** Creating an ingredient *)

Lemma present_false (p : Param) : present p = false <-> absentOrFalsy p.
Proof.
  unfold present, absentOrFalsy. destruct p as [s |]; simpl.
  - rewrite negb_false_iff. split.
    + intro E. apply String.eqb_eq in E. subst. now right.
    + intros [E | E]; [discriminate | ]. injection E as ->. reflexivity.
  - split; [now left | reflexivity].
Qed.

Lemma present_true (p : Param) :
  present p = true <-> exists s, p = Some s /\ s <> "".
Proof.
  unfold present. destruct p as [s |]; simpl.
  - rewrite negb_true_iff. split.
    + intro E. exists s. split; [reflexivity | ]. now apply String.eqb_neq.
    + intros (s' & E & Hs). injection E as <-. now apply String.eqb_neq.
  - split; [discriminate | ]. intros (s & E & _). discriminate.
Qed.



Lemma decimal_nonempty (z : Z) : (decimal z =? "") = false.
Proof.
  apply String.eqb_neq. unfold decimal.
  destruct (Z.to_int z) as [d | d]; simpl; [ | discriminate].
  destruct d; discriminate.
Qed.


Lemma textOf_required (v : JsValue) (s : string) :
  textOf v s -> requiredString v = ret s.
Proof.
  intros [s' H | z H | ]; unfold requiredString; simpl; [ | | reflexivity].
  - apply String.eqb_neq in H. now rewrite H.
  - now rewrite decimal_nonempty.
Qed.

Lemma textOf_optional (v : JsValue) (s : string) :
  textOf v s -> optionalString v = ret (Some s).
Proof. now intros [s' H | z H | ]. Qed.

Lemma truthy_cases (v : JsValue) :
  truthy v = true -> (exists s, textOf v s) \/ isObject v.
Proof.
  destruct v as [| | [] | z | s | r]; simpl; try discriminate; intro H.
  - left. eexists. constructor.
  - left. eexists. constructor. now apply negb_true_iff, Z.eqb_neq in H.
  - left. eexists. constructor. now apply negb_true_iff, String.eqb_neq in H.
  - right. now exists r.
Qed.

(** What the create of an ingredient does, case by case. *)
Lemma ingredients_store_run (env : Env) (data : IngredientsController.Data)
    (w : World) :
  IngredientsController.store env data w
  = if truthy (IngredientsController.name data)
       && truthy (IngredientsController.description data)
       && isBoolean (IngredientsController.isAlcoholic data)
       && truthy (IngredientsController.image data)
    then
      match castString (IngredientsController.name data),
            castString (IngredientsController.description data),
            castString (IngredientsController.image data) with
      | Some (Some n), Some d, Some i =>
          let doc := Ingredient.mk (newId env) n d
                       (IngredientsController.flag
                          (IngredientsController.isAlcoholic data))
                       i (now env) (now env) in
          (created (IngredientDoc doc),
           mkWorld (mkStore (cocktails (db w)) (ingredients (db w) ++ [doc])
                            (cocktail_ingredients (db w)))
                   (calls w ++ [Create Ingredients]))
      | _, _, _ =>
          (internalServerError
             (Failure "Error creating ingredient" "Cast to string failed"), w)
      end
    else
      (badRequest (Message
         "Missing required fields: name, description, isAlcoholic, image"), w).
Proof.
  unfold IngredientsController.store.
  destruct (truthy (IngredientsController.name data)) eqn:Tn;
    [ | now destruct w].
  destruct (truthy (IngredientsController.description data)) eqn:Td;
    [ | now destruct w].
  destruct (isBoolean (IngredientsController.isAlcoholic data));
    [ | now destruct w].
  destruct (truthy (IngredientsController.image data)) eqn:Ti;
    [ | now destruct w].
  simpl.
  destruct (truthy_cases _ Tn) as [(n & Hn) | (r & Hn)].
  - rewrite (textOf_required _ _ Hn).
    assert (Cn : castString (IngredientsController.name data) = Some (Some n))
      by (destruct Hn; reflexivity).
    rewrite Cn.
    destruct (truthy_cases _ Td) as [(d & Hd) | (rd & Hd)].
    + rewrite (textOf_optional _ _ Hd).
      assert (Cd : castString (IngredientsController.description data)
                   = Some (Some d)) by (destruct Hd; reflexivity).
      rewrite Cd.
      destruct (truthy_cases _ Ti) as [(i & Hi) | (ri & Hi)].
      * rewrite (textOf_optional _ _ Hi).
        assert (Ci : castString (IngredientsController.image data)
                     = Some (Some i)) by (destruct Hi; reflexivity).
        rewrite Ci. reflexivity.
      * rewrite Hi. simpl. now destruct w.
    + rewrite Hd. simpl. now destruct w.
  - rewrite Hn. simpl. now destruct w.
Qed.




(** ** Malformed identifiers *)

Lemma whenPresent_some {A} (s : string) (k : string -> M A) (o : M A) :
  s <> "" -> whenPresent (Some s) k o = k s.
Proof.
  intro H. unfold whenPresent. simpl.
  apply String.eqb_neq in H. now rewrite H.
Qed.

Lemma whenPresent_absent {A} (p : Param) (k : string -> M A) (o : M A) :
  present p = false -> whenPresent p k o = o.
Proof.
  unfold present, whenPresent. destruct p as [s |]; simpl; [ | reflexivity].
  now intros ->.
Qed.

Ltac reject H :=
  unfold CocktailsController.show, CocktailsController.update,
    CocktailsController.destroy, IngredientsController.show,
    IngredientsController.update, IngredientsController.destroy,
    CocktailIngredientsController.show, CocktailIngredientsController.update,
    CocktailIngredientsController.destroy;
  rewrite H; reflexivity.

(** C2, as amended: for an identifier that is not a 24-hex-character string,
    get-by-id, update and delete of each of the three resources answer 400
    and leave the world (store and call log) untouched; the identifier
    filters of the two list actions answer 400 when the malformed value is
    not the empty string, again before any store call, except that the
    join list has already run the query of a well-formed [cocktailId] filter
    when it rejects a malformed [ingredientId]. *)
Theorem malformed_id_rejected (id : string) (env : Env) (w : World) :
  ~ Hex24 id ->
  let invalid := (badRequest (Message "Invalid ID format"), w) in
  CocktailsController.show id w = invalid
  /\ (forall data, CocktailsController.update env id data w = invalid)
  /\ CocktailsController.destroy id w = invalid
  /\ IngredientsController.show id w = invalid
  /\ (forall patch, IngredientsController.update env id patch w = invalid)
  /\ IngredientsController.destroy id w = invalid
  /\ CocktailIngredientsController.show id w = invalid
  /\ (forall data,
        CocktailIngredientsController.update env id data w = invalid)
  /\ CocktailIngredientsController.destroy id w = invalid
  /\ (id <> "" ->
      (forall isAlcoholic sort,
         CocktailsController.index (Some id) isAlcoholic sort w
         = (badRequest (Message "Invalid ingredient ID format"), w))
      /\ (forall ingredientId,
            CocktailIngredientsController.index (Some id) ingredientId w
            = (badRequest (Message "Invalid cocktail ID format"), w))
      /\ (forall cocktailId,
            status (fst (CocktailIngredientsController.index
                           cocktailId (Some id) w)) = 400%Z
            /\ db (snd (CocktailIngredientsController.index
                          cocktailId (Some id) w)) = db w)
      /\ (forall cocktailId,
            present cocktailId = false ->
            CocktailIngredientsController.index cocktailId (Some id) w
            = (badRequest (Message "Invalid ingredient ID format"), w))
      /\ (forall c,
            isValid c = true ->
            calls (snd (CocktailIngredientsController.index
                          (Some c) (Some id) w))
            = calls w ++ [Find CocktailIngredients])).
Proof.
  intros H invalid. apply isValid_false in H. subst invalid.
  repeat match goal with
         | |- _ /\ _ => split
         | |- id <> "" -> _ => intro
         end; intros; try (reject H).
  - unfold CocktailsController.index.
    rewrite whenPresent_some by assumption. now rewrite H.
  - unfold CocktailIngredientsController.index.
    rewrite whenPresent_some by assumption. now rewrite H.
  - assert (Hid : (id =? "") = false) by now apply String.eqb_neq.
    unfold CocktailIngredientsController.index, whenPresent.
    destruct cocktailId as [c |]; simpl.
    + destruct (c =? "") eqn:Ec; simpl.
      * run. rewrite Hid, H. simpl. auto.
      * destruct (isValid c) eqn:Ev; simpl; [ | auto].
        destruct (cast_defined c Ev) as (o & Eo).
        run. rewrite Eo. simpl. rewrite Hid, H. simpl. auto.
    + run. rewrite Hid, H. simpl. auto.
  - assert (Hid : (id =? "") = false) by now apply String.eqb_neq.
    unfold CocktailIngredientsController.index.
    rewrite whenPresent_absent by assumption.
    unfold whenPresent. run. rewrite Hid, H. simpl. now destruct w.
  - assert (Hid : (id =? "") = false) by now apply String.eqb_neq.
    assert (Hc : c <> "") by (intros ->; discriminate).
    unfold CocktailIngredientsController.index.
    rewrite whenPresent_some by assumption.
    match goal with Hv : isValid c = true |- _ =>
      rewrite Hv; destruct (cast_defined c Hv) as (o & Eo) end.
    unfold whenPresent. run. rewrite Eo. simpl. rewrite Hid, H. reflexivity.
Qed.

Lemma malformed_id_rejected_witness :
  CocktailsController.show "margarita" (start bar)
  = (badRequest (Message "Invalid ID format"), start bar)
  /\ CocktailIngredientsController.destroy "60b7c7e3f4e8fa1b3c7a539g"
       (start bar)
     = (badRequest (Message "Invalid ID format"), start bar).
Proof.
  split.
  - apply (malformed_id_rejected "margarita" env0 (start bar)).
    intros [H _]. vm_compute in H. discriminate H.
  - apply (malformed_id_rejected "60b7c7e3f4e8fa1b3c7a539g" env0 (start bar)).
    intro H. apply isValid_spec in H. vm_compute in H. discriminate H.
Defined.

(** C2, as stated, fails at an identifier filter: the empty string is not a
    24-hex-character string, yet the list actions treat it as an absent
    filter and go on to query the store; and the join list rejects a
    malformed [ingredientId] only after the query of a well-formed
    [cocktailId] filter has run. *)
Lemma empty_filter_is_not_rejected :
  ~ Hex24 ""
  /\ status (fst (CocktailsController.index (Some "") None None (start bar)))
     = 200%Z
  /\ calls (snd (CocktailsController.index (Some "") None None (start bar)))
     = [Find Cocktails]
  /\ ~ Hex24 "lime"
  /\ calls (snd (CocktailIngredientsController.index
                   (Some mojitoId) (Some "lime") (start bar)))
     = [Find CocktailIngredients].
Proof.
  split; [exact empty_not_Hex24 | ].
  split; [reflexivity | ]. split; [reflexivity | ].
  split; [ | reflexivity].
  intros [H _]. discriminate H.
Qed.

(** ** Cascade on delete *)

(** C4: deleting a cocktail that exists in the store succeeds with 200 and
    leaves no join row referencing it, however many referenced it before;
    the same holds for deleting an ingredient. *)
Theorem delete_cascades (id : string) (o : ObjectId) (w : World) :
  castObjectId id = Some o ->
  ((exists c, In c (cocktails (db w)) /\ Cocktail._id c = o) ->
   status (fst (CocktailsController.destroy id w)) = 200%Z
   /\ List.length
        (rowsOfCocktail o (db (snd (CocktailsController.destroy id w)))) = 0%nat)
  /\
  ((exists i, In i (ingredients (db w)) /\ Ingredient._id i = o) ->
   status (fst (IngredientsController.destroy id w)) = 200%Z
   /\ List.length
        (rowsOfIngredient o (db (snd (IngredientsController.destroy id w))))
      = 0%nat).
Proof.
  intro E. pose proof (cast_valid id o E) as V. split.
  - intros (c & Hin & Hc).
    destruct (find_exists (fun d => (Cocktail._id d =? o)%N) (cocktails (db w)))
      as (c' & Hfind & _ & Hc').
    { exists c. split; [exact Hin | ]. subst o. apply N.eqb_refl. }
    apply N.eqb_eq in Hc'.
    unfold CocktailsController.destroy, rowsOfCocktail. rewrite V. run.
    rewrite E. simpl. rewrite Hfind. simpl. rewrite Hc'.
    split; [reflexivity | ].
    now rewrite (filter_negb_filter
                   (fun r => (CocktailIngredient.cocktailId r =? o)%N)).
  - intros (i & Hin & Hi).
    destruct (find_exists (fun d => (Ingredient._id d =? o)%N)
                (ingredients (db w)))
      as (i' & Hfind & _ & Hi').
    { exists i. split; [exact Hin | ]. subst o. apply N.eqb_refl. }
    apply N.eqb_eq in Hi'.
    unfold IngredientsController.destroy, rowsOfIngredient. rewrite V. run.
    rewrite E. simpl. rewrite Hfind. simpl. rewrite Hi'.
    split; [reflexivity | ].
    now rewrite (filter_negb_filter
                   (fun r => (CocktailIngredient.ingredientId r =? o)%N)).
Qed.

Lemma delete_cascades_witness :
  List.length (rowsOfCocktail (oid margaritaId) bar) = 2%nat
  /\ status (fst (CocktailsController.destroy margaritaId (start bar))) = 200%Z
  /\ List.length
       (rowsOfCocktail (oid margaritaId)
          (db (snd (CocktailsController.destroy margaritaId (start bar)))))
     = 0%nat.
Proof.
  split; [reflexivity | ].
  apply (delete_cascades margaritaId (oid margaritaId) (start bar)).
  - reflexivity.
  - exists margarita. split; [simpl; tauto | reflexivity].
Defined.

(** ** Creating a join row *)

Lemma find_cocktail (o : ObjectId) (s : Store) :
  (cocktailExists o s /\
   exists c, List.find (fun d => (Cocktail._id d =? o)%N) (cocktails s) = Some c)
  \/ (~ cocktailExists o s /\
      List.find (fun d => (Cocktail._id d =? o)%N) (cocktails s) = None).
Proof.
  destruct (List.find (fun d => (Cocktail._id d =? o)%N) (cocktails s))
    as [c |] eqn:E.
  - left. split; [ | now exists c].
    apply find_some in E as [Hin Hc]. apply N.eqb_eq in Hc. now exists c.
  - right. split; [ | reflexivity].
    intros (c & Hin & Hc). pose proof (find_none _ _ E c Hin) as F.
    simpl in F. subst o. now rewrite N.eqb_refl in F.
Qed.

Lemma find_ingredient (o : ObjectId) (s : Store) :
  (ingredientExists o s /\
   exists i,
     List.find (fun d => (Ingredient._id d =? o)%N) (ingredients s) = Some i)
  \/ (~ ingredientExists o s /\
      List.find (fun d => (Ingredient._id d =? o)%N) (ingredients s) = None).
Proof.
  destruct (List.find (fun d => (Ingredient._id d =? o)%N) (ingredients s))
    as [i |] eqn:E.
  - left. split; [ | now exists i].
    apply find_some in E as [Hin Hi]. apply N.eqb_eq in Hi. now exists i.
  - right. split; [ | reflexivity].
    intros (i & Hin & Hi). pose proof (find_none _ _ E i Hin) as F.
    simpl in F. subst o. now rewrite N.eqb_refl in F.
Qed.

(** C5, as amended: a create request with well-formed [cocktailId] and
    [ingredientId] and a non-empty [quantity] whose cocktail or ingredient is
    not in the store answers 404, leaves the store unchanged and issues no
    insert; when both exist the answer is 201 and the two lookups precede
    the insert in the call log. *)
Theorem join_store_checks_references
    (env : Env) (c i q : string) (co io : ObjectId) (w : World) :
  let data := CocktailIngredientsController.mkData (Some c) (Some i) (Some q) in
  let result := CocktailIngredientsController.store env data w in
  q <> "" ->
  castObjectId c = Some co ->
  castObjectId i = Some io ->
  (~ cocktailExists co (db w) \/ ~ ingredientExists io (db w) ->
   status (fst result) = 404%Z
   /\ db (snd result) = db w
   /\ exists issued,
        calls (snd result) = calls w ++ issued
        /\ ~ In (Create CocktailIngredients) issued)
  /\
  (cocktailExists co (db w) -> ingredientExists io (db w) ->
   let doc := CocktailIngredient.mk (newId env) co io q (now env) (now env) in
   fst result = created (JoinDoc doc)
   /\ cocktail_ingredients (db (snd result))
      = cocktail_ingredients (db w) ++ [doc]
   /\ calls (snd result)
      = calls w ++ [FindById Cocktails co; FindById Ingredients io;
                    Create CocktailIngredients]).
Proof.
  intros data result Hq Ec Ei. subst result data.
  pose proof (cast_valid c co Ec) as Vc. pose proof (cast_valid i io Ei) as Vi.
  assert (Pc : c <> "") by (intros ->; discriminate).
  assert (Pi : i <> "") by (intros ->; discriminate).
  apply String.eqb_neq in Hq, Pc, Pi.
  unfold CocktailIngredientsController.store, present. simpl.
  rewrite Hq, Pc, Pi, Vc, Vi. simpl. run. rewrite Ec, Ei. simpl.
  destruct (find_cocktail co (db w)) as [[Xc (c' & Fc)] | [Xc Fc]];
    rewrite Fc; simpl.
  - destruct (find_ingredient io (db w)) as [[Xi (i' & Fi)] | [Xi Fi]];
      rewrite Fi; simpl.
    + split; [tauto | ]. intros _ _. rewrite <- !app_assoc. auto.
    + split; [ | tauto]. intros _. repeat split.
      exists [FindById Cocktails co; FindById Ingredients io].
      rewrite <- app_assoc. split; [reflexivity | ].
      simpl. intros [F | [F | []]]; discriminate.
  - split; [ | tauto]. intros _. repeat split.
    exists [FindById Cocktails co]. split; [reflexivity | ].
    simpl. intros [F | []]; discriminate.
Qed.

Lemma join_store_checks_references_witness :
  status (fst (CocktailIngredientsController.store env0
    (CocktailIngredientsController.mkData
       (Some mojitoId) (Some tequilaId) (Some "2 oz")) (start emptyStore)))
  = 404%Z
  /\ db (snd (CocktailIngredientsController.store env0
       (CocktailIngredientsController.mkData
          (Some mojitoId) (Some tequilaId) (Some "2 oz")) (start emptyStore)))
     = emptyStore.
Proof.
  assert (H : ~ cocktailExists (oid mojitoId) emptyStore
              \/ ~ ingredientExists (oid tequilaId) emptyStore).
  { left. intros (x & [] & _). }
  pose proof (join_store_checks_references env0 mojitoId tequilaId "2 oz"
                (oid mojitoId) (oid tequilaId) (start emptyStore)) as T.
  simpl in T. destruct T as [T _]; try reflexivity; try discriminate.
  destruct (T H) as (T1 & T2 & _). split; assumption.
Defined.

(** C5, as stated, fails: with well-formed identifiers of a cocktail and an
    ingredient that do not exist but no [quantity], the answer is 400, not
    404. *)
Lemma join_store_without_quantity_is_400 :
  isValid mojitoId = true
  /\ isValid tequilaId = true
  /\ ~ cocktailExists (oid mojitoId) emptyStore
  /\ status (fst (CocktailIngredientsController.store env0
       (CocktailIngredientsController.mkData
          (Some mojitoId) (Some tequilaId) None) (start emptyStore)))
     = 400%Z.
Proof.
  repeat split. intros (x & [] & _).
Qed.

(** ** Updating a join row *)

Lemma updateFirst_hit {D} (p : D -> bool) (f : D -> D) (l : list D) (d : D) :
  List.find p l = Some d -> In (f d) (updateFirst p f l).
Proof.
  induction l as [| a l IH]; simpl; [discriminate | ].
  destruct (p a) eqn:E.
  - intros [= ->]. now left.
  - intro H. right. now apply IH.
Qed.

Lemma join_update_writes_unchecked
    (env : Env) (id : string) (rid : ObjectId)
    (data : CocktailIngredientsController.Data) (nc ni : option ObjectId)
    (w : World) :
  castObjectId id = Some rid ->
  joinExists rid (db w) ->
  CocktailIngredientsController.castField
    (CocktailIngredientsController.cocktailId data) w = (Value nc, w) ->
  CocktailIngredientsController.castField
    (CocktailIngredientsController.ingredientId data) w = (Value ni, w) ->
  exists r,
    List.find (fun d => (CocktailIngredient._id d =? rid)%N)
      (cocktail_ingredients (db w)) = Some r
    /\ fst (CocktailIngredientsController.update env id data w)
       = ok (JoinDoc (CocktailIngredientsController.assign env nc ni
                        (CocktailIngredientsController.quantity data) r))
    /\ In (CocktailIngredientsController.assign env nc ni
             (CocktailIngredientsController.quantity data) r)
          (cocktail_ingredients
             (db (snd (CocktailIngredientsController.update env id data w))))
    /\ cocktails (db (snd (CocktailIngredientsController.update env id data w)))
       = cocktails (db w)
    /\ ingredients
         (db (snd (CocktailIngredientsController.update env id data w)))
       = ingredients (db w)
    /\ calls (snd (CocktailIngredientsController.update env id data w))
       = calls w ++ [FindByIdAndUpdate CocktailIngredients rid].
Proof.
  intros E (r0 & Hin & Hr0) Hc Hi.
  destruct (find_exists (fun d => (CocktailIngredient._id d =? rid)%N)
              (cocktail_ingredients (db w))) as (r & Hfind & _ & _).
  { exists r0. split; [exact Hin | ]. subst rid. apply N.eqb_refl. }
  exists r. split; [exact Hfind | ].
  assert (R : CocktailIngredientsController.update env id data w
              = (ok (JoinDoc (CocktailIngredientsController.assign env nc ni
                                (CocktailIngredientsController.quantity data)
                                r)),
                 mkWorld
                   (setDocs
                      (updateFirst
                         (fun d => (CocktailIngredient._id d =? rid)%N)
                         (CocktailIngredientsController.assign env nc ni
                            (CocktailIngredientsController.quantity data))
                         (cocktail_ingredients (db w)))
                      (db w))
                   (calls w ++ [FindByIdAndUpdate CocktailIngredients rid]))).
  { unfold CocktailIngredientsController.update.
    rewrite (cast_valid id rid E). simpl.
    unfold tryCatch. unfold bind at 1. rewrite Hc.
    unfold bind at 1. rewrite Hi.
    run. rewrite E. simpl. rewrite Hfind. reflexivity. }
  rewrite R. simpl. repeat split. now apply updateFirst_hit.
Qed.

(** C10: the update of a join row writes the [cocktailId] and [ingredientId]
    of the body without looking either of them up.  Whenever the row exists
    and the body carries a well-formed identifier of a cocktail (or of an
    ingredient) that is not in the store, the answer is 200 and the stored
    row now references the absent document; the only store call is the
    update itself.  Such a request exists. *)
Theorem join_update_no_reference_check :
  (forall env id rid c o w,
     castObjectId id = Some rid ->
     joinExists rid (db w) ->
     castObjectId c = Some o ->
     (~ cocktailExists o (db w) ->
      let result :=
        CocktailIngredientsController.update env id
          (CocktailIngredientsController.mkData (Some c) None None) w in
      status (fst result) = 200%Z
      /\ calls (snd result)
         = calls w ++ [FindByIdAndUpdate CocktailIngredients rid]
      /\ exists r,
           fst result = ok (JoinDoc r)
           /\ In r (cocktail_ingredients (db (snd result)))
           /\ CocktailIngredient._id r = rid
           /\ CocktailIngredient.cocktailId r = o
           /\ ~ cocktailExists o (db (snd result)))
     /\
     (~ ingredientExists o (db w) ->
      let result :=
        CocktailIngredientsController.update env id
          (CocktailIngredientsController.mkData None (Some c) None) w in
      status (fst result) = 200%Z
      /\ calls (snd result)
         = calls w ++ [FindByIdAndUpdate CocktailIngredients rid]
      /\ exists r,
           fst result = ok (JoinDoc r)
           /\ In r (cocktail_ingredients (db (snd result)))
           /\ CocktailIngredient._id r = rid
           /\ CocktailIngredient.ingredientId r = o
           /\ ~ ingredientExists o (db (snd result))))
  /\
  (exists env id data w r,
     joinExists (oid id) (db w)
     /\ fst (CocktailIngredientsController.update env id data w)
        = ok (JoinDoc r)
     /\ In r (cocktail_ingredients
                (db (snd (CocktailIngredientsController.update env id data w))))
     /\ ~ cocktailExists (CocktailIngredient.cocktailId r)
            (db (snd (CocktailIngredientsController.update env id data w)))).
Proof.
  split.
  - intros env id rid c o w E X Ec. split; intros A result.
    + destruct (join_update_writes_unchecked env id rid
                  (CocktailIngredientsController.mkData (Some c) None None)
                  (Some o) None w E X) as (r & Hf & R1 & R2 & R3 & R4 & R5).
      { simpl. unfold bind, cast. now rewrite Ec. }
      { reflexivity. }
      subst result. rewrite R1. split; [reflexivity | ].
      split; [exact R5 | ].
      eexists. split; [reflexivity | ]. split; [exact R2 | ].
      apply find_some in Hf as [_ Hf]. apply N.eqb_eq in Hf.
      repeat split; [exact Hf | ].
      unfold cocktailExists. now rewrite R3.
    + destruct (join_update_writes_unchecked env id rid
                  (CocktailIngredientsController.mkData None (Some c) None)
                  None (Some o) w E X) as (r & Hf & R1 & R2 & R3 & R4 & R5).
      { reflexivity. }
      { simpl. unfold bind, cast. now rewrite Ec. }
      subst result. rewrite R1. split; [reflexivity | ].
      split; [exact R5 | ].
      eexists. split; [reflexivity | ]. split; [exact R2 | ].
      apply find_some in Hf as [_ Hf]. apply N.eqb_eq in Hf.
      repeat split; [exact Hf | ].
      unfold ingredientExists. now rewrite R4.
  - exists env0, "000000000000000000000065",
      (CocktailIngredientsController.mkData
         (Some "ffffffffffffffffffffffff") None None),
      (start bar).
    eexists. split; [ | split; [reflexivity | split]].
    + exists margaritaLime. split; [simpl; tauto | reflexivity].
    + simpl. left. reflexivity.
    + intros (c & Hin & Hc). simpl in Hin.
      destruct Hin as [<- | [<- | []]]; vm_compute in Hc; discriminate Hc.
Qed.

Lemma join_update_no_reference_check_witness :
  status (fst (CocktailIngredientsController.update env0
    "000000000000000000000065"
    (CocktailIngredientsController.mkData
       (Some "ffffffffffffffffffffffff") None None) (start bar))) = 200%Z.
Proof.
  destruct join_update_no_reference_check as [T _].
  apply (T env0 "000000000000000000000065" 101%N "ffffffffffffffffffffffff"
           (oid "ffffffffffffffffffffffff") (start bar)).
  - reflexivity.
  - exists margaritaLime. split; [simpl; tauto | reflexivity].
  - reflexivity.
  - intros (c & Hin & Hc). simpl in Hin.
    destruct Hin as [<- | [<- | []]]; vm_compute in Hc; discriminate Hc.
Defined.

(** ** Overwritten filters *)


Lemma NoDup_map_injective {A B} (f : A -> B) (l : list A) :
  NoDup (map f l) ->
  forall a b, In a l -> In b l -> f a = f b -> a = b.
Proof.
  induction l as [| x l IH]; simpl; intros N a b Ha Hb E; [destruct Ha | ].
  inversion N as [| ? ? Hx Hl]; subst.
  destruct Ha as [<- | Ha], Hb as [<- | Hb].
  - reflexivity.
  - exfalso. apply Hx. rewrite E. now apply in_map.
  - exfalso. apply Hx. rewrite <- E. now apply in_map.
  - now apply IH.
Qed.

Lemma filter_by_ids_of_filter {A} (f : A -> ObjectId) (p : A -> bool)
    (l : list A) :
  NoDup (map f l) ->
  filter (fun a => idIn (f a) (map f (filter p l))) l = filter p l.
Proof.
  intro N. apply filter_ext_in. intros a Ha.
  destruct (p a) eqn:P.
  - apply idIn_spec, in_map, filter_In. now split.
  - destruct (idIn (f a) (map f (filter p l))) eqn:I; [ | reflexivity].
    apply idIn_spec, in_map_iff in I as (b & E & Hb).
    apply filter_In in Hb as [Hb Pb].
    rewrite (NoDup_map_injective f l N b a Hb Ha E) in Pb. congruence.
Qed.

Lemma joinListResponse_spec (s : Store) (rows : list CocktailIngredient.t) :
  joinListResponse s rows
  = if (List.length (map (populate s) rows) =? 0)%nat
    then notFound (Message "No cocktail ingredients found matching the filters")
    else ok (JoinList (map (populate s) rows)).
Proof. now destruct rows. Qed.

(** C1: in the join list, when both [cocktailId] and [ingredientId] are
    supplied and well formed, the second assignment to [query._id] replaces
    the first.  The response is the one the request gets with the
    [ingredientId] filter alone; with unique row identifiers it lists
    exactly the rows of that ingredient; and it is not the conjunction of
    the two filters. *)
Theorem join_index_second_filter_wins :
  (forall (cocktailId ingredientId : string) (io : ObjectId) (w : World),
     isValid cocktailId = true ->
     castObjectId ingredientId = Some io ->
     fst (CocktailIngredientsController.index
            (Some cocktailId) (Some ingredientId) w)
     = fst (CocktailIngredientsController.index None (Some ingredientId) w)
     /\ db (snd (CocktailIngredientsController.index
                   (Some cocktailId) (Some ingredientId) w)) = db w
     /\ (NoDup (map CocktailIngredient._id (cocktail_ingredients (db w))) ->
         fst (CocktailIngredientsController.index
                (Some cocktailId) (Some ingredientId) w)
         = joinListResponse (db w) (rowsOfIngredient io (db w))))
  /\
  (exists (cocktailId ingredientId : string) (co io : ObjectId) (w : World),
     castObjectId cocktailId = Some co
     /\ castObjectId ingredientId = Some io
     /\ NoDup (map CocktailIngredient._id (cocktail_ingredients (db w)))
     /\ fst (CocktailIngredientsController.index
               (Some cocktailId) (Some ingredientId) w)
        <> joinListResponse (db w) (rowsOfBoth co io (db w))).
Proof.
  split.
  - intros cocktailId ingredientId io w Vc Ei.
    pose proof (cast_valid _ _ Ei) as Vi.
    assert (Pc : cocktailId <> "") by (intros ->; discriminate).
    assert (Pi : ingredientId <> "") by (intros ->; discriminate).
    destruct (cast_defined cocktailId Vc) as (co & Ec).
    apply String.eqb_neq in Pc, Pi.
    unfold CocktailIngredientsController.index, whenPresent. simpl.
    rewrite Pc, Pi, Vc, Vi. simpl. run. rewrite Ec, Ei.
    unfold setId, matches. simpl.
    split; [ | split].
    + match goal with |- context [(List.length ?l =? 0)%nat] =>
        destruct (List.length l =? 0)%nat end; reflexivity.
    + match goal with |- context [(List.length ?l =? 0)%nat] =>
        destruct (List.length l =? 0)%nat end; reflexivity.
    + intro N. rewrite joinListResponse_spec. unfold rowsOfIngredient.
      rewrite (filter_by_ids_of_filter CocktailIngredient._id
                 (fun r => (CocktailIngredient.ingredientId r =? io)%N)
                 (cocktail_ingredients (db w)) N).
      match goal with |- context [(List.length ?l =? 0)%nat] =>
        destruct (List.length l =? 0)%nat end; reflexivity.
  - exists mojitoId, tequilaId, (oid mojitoId), (oid tequilaId), (start bar).
    split; [reflexivity | ]. split; [reflexivity | ]. split.
    + simpl. repeat constructor; simpl; intuition discriminate.
    + vm_compute. discriminate.
Qed.

Lemma join_index_second_filter_wins_witness :
  fst (CocktailIngredientsController.index
         (Some mojitoId) (Some tequilaId) (start bar))
  = fst (CocktailIngredientsController.index None (Some tequilaId) (start bar)).
Proof.
  destruct join_index_second_filter_wins as [T _].
  destruct (T mojitoId tequilaId (oid tequilaId) (start bar)) as [H _];
    [reflexivity | reflexivity | exact H].
Defined.

(** ** The alcoholic-content filter *)

Lemma returned_cocktailListResponse (l : list Cocktail.t) :
  returned (cocktailListResponse l) = l
  /\ status (cocktailListResponse l)
     = match l with [] => 404%Z | _ => 200%Z end.
Proof. now destruct l. Qed.

Lemma alcoholic_ids_spec (s : Store) (id : ObjectId) :
  In id (alcoholicCocktailIds s)
  <-> exists r i,
        In r (cocktail_ingredients s) /\ In i (ingredients s)
        /\ CocktailIngredient.cocktailId r = id
        /\ CocktailIngredient.ingredientId r = Ingredient._id i
        /\ Ingredient.isAlcoholic i = true.
Proof.
  unfold alcoholicCocktailIds. rewrite nodup_In, in_map_iff. split.
  - intros (r & E & Hr). apply filter_In in Hr as [Hr Hi].
    apply idIn_spec in Hi. rewrite nodup_In, in_map_iff in Hi.
    destruct Hi as (i & Ei & Hi). apply filter_In in Hi as [Hi Ha].
    exists r, i. auto.
  - intros (r & i & Hr & Hi & E & Ei & Ha). exists r. split; [exact E | ].
    apply filter_In. split; [exact Hr | ].
    apply idIn_spec. rewrite nodup_In, in_map_iff. exists i.
    split; [now symmetry | ]. apply filter_In. now split.
Qed.

(** C3: for every store, the cocktail list with [isAlcoholic=true] carries
    exactly the stored cocktails linked through a join row to an ingredient
    flagged alcoholic, and with [isAlcoholic=false] exactly the stored
    cocktails that are not (those without any ingredient included).  The
    answer is 200 with that list, or 404 when the list is empty. *)
Theorem cocktails_index_isAlcoholic (w : World) :
  let yes := fst (CocktailsController.index None (Some "true") None w) in
  let no := fst (CocktailsController.index None (Some "false") None w) in
  (forall c, In c (returned yes)
             <-> In c (cocktails (db w)) /\ alcoholicLinked (db w) c)
  /\ (forall c, In c (returned no)
                <-> In c (cocktails (db w)) /\ ~ alcoholicLinked (db w) c)
  /\ status yes = match returned yes with [] => 404%Z | _ => 200%Z end
  /\ status no = match returned no with [] => 404%Z | _ => 200%Z end
  /\ (forall c, In c (cocktails (db w)) ->
                (forall r, In r (cocktail_ingredients (db w)) ->
                           CocktailIngredient.cocktailId r <> Cocktail._id c) ->
                In c (returned no)).
Proof.
  intros yes no.
  assert (Y : exists ids,
            yes = cocktailListResponse
                    (filter (fun c => idIn (Cocktail._id c) ids)
                            (cocktails (db w)))
            /\ no = cocktailListResponse
                      (filter (fun c => negb (idIn (Cocktail._id c) ids))
                              (cocktails (db w)))
            /\ forall c, In (Cocktail._id c) ids <-> alcoholicLinked (db w) c).
  { exists (alcoholicCocktailIds (db w)). split; [ | split].
    - subst yes.
      unfold CocktailsController.index, cocktailListResponse,
        alcoholicCocktailIds.
      run. unfold matches. simpl.
      match goal with |- context [(List.length ?l =? 0)%nat] =>
        destruct (List.length l =? 0)%nat end; reflexivity.
    - subst no.
      unfold CocktailsController.index, cocktailListResponse,
        alcoholicCocktailIds.
      run. unfold matches. simpl.
      match goal with |- context [(List.length ?l =? 0)%nat] =>
        destruct (List.length l =? 0)%nat end; reflexivity.
    - intro c. apply alcoholic_ids_spec. }
  destruct Y as (ids & -> & -> & L).
  assert (No : forall c, In c (returned (cocktailListResponse
                 (filter (fun c => negb (idIn (Cocktail._id c) ids))
                         (cocktails (db w)))))
               <-> In c (cocktails (db w)) /\ ~ alcoholicLinked (db w) c).
  { intro c.
    rewrite (proj1 (returned_cocktailListResponse _)), filter_In, <- L.
    rewrite negb_true_iff, <- idIn_spec.
    destruct (idIn (Cocktail._id c) ids); intuition congruence. }
  repeat split.
  - rewrite (proj1 (returned_cocktailListResponse _)) in H.
    now apply filter_In in H.
  - rewrite (proj1 (returned_cocktailListResponse _)) in H.
    apply filter_In in H as [_ H]. now apply L, idIn_spec.
  - intros [H1 H2]. rewrite (proj1 (returned_cocktailListResponse _)).
    apply filter_In. split; [exact H1 | ]. now apply idIn_spec, L.
  - now apply No.
  - now apply No.
  - intro H. now apply No.
  - rewrite (proj1 (returned_cocktailListResponse _)).
    apply returned_cocktailListResponse.
  - rewrite (proj1 (returned_cocktailListResponse _)).
    apply returned_cocktailListResponse.
  - intros c Hc Hr. apply No. split; [exact Hc | ].
    intros (r & i & Hin & _ & E & _). exact (Hr r Hin E).
Qed.

Lemma cocktails_index_isAlcoholic_witness :
  In margarita
     (returned (fst (CocktailsController.index None (Some "true") None
                       (start bar))))
  /\ In mojito
        (returned (fst (CocktailsController.index None (Some "false") None
                          (start bar)))).
Proof.
  destruct (cocktails_index_isAlcoholic (start bar)) as (Y & N & _).
  split.
  - apply Y. split; [simpl; tauto | ].
    exists margaritaTequila, tequila. simpl. tauto.
  - apply N. split; [simpl; tauto | ].
    intros (r & i & Hr & Hi & E & Ei & A). simpl in Hr, Hi.
    destruct Hi as [<- | [<- | []]]; [discriminate A | ].
    destruct Hr as [<- | [<- | [<- | []]]]; vm_compute in E, Ei;
      discriminate.
Defined.

(** ** Sorting *)

Section InsertionSort.
Variable A : Type.
Variable le : A -> A -> bool.
Hypothesis le_total : forall a b, le a b = true \/ le b a = true.
Hypothesis le_trans :
  forall a b c, le a b = true -> le b c = true -> le a c = true.

Let R (a b : A) : Prop := le a b = true.

Lemma insertBy_perm (x : A) (l : list A) :
  Permutation (insertBy le x l) (x :: l).
Proof.
  induction l as [| y l IH]; simpl; [reflexivity | ].
  destruct (le x y); [reflexivity | ].
  rewrite IH. apply perm_swap.
Qed.

Lemma sortBy_perm (l : list A) : Permutation (sortBy le l) l.
Proof.
  induction l as [| x l IH]; simpl; [reflexivity | ].
  rewrite insertBy_perm. now constructor.
Qed.

Lemma insertBy_sorted (x : A) (l : list A) :
  StronglySorted R l -> StronglySorted R (insertBy le x l).
Proof.
  induction 1 as [| y l S IH F]; simpl.
  - repeat constructor.
  - destruct (le x y) eqn:E.
    + constructor; [now constructor | ].
      constructor; [exact E | ].
      eapply Forall_impl; [ | exact F]. intros z Hz. exact (le_trans _ _ _ E Hz).
    + constructor; [exact IH | ].
      apply Forall_forall. intros z Hz.
      apply (Permutation_in _ (insertBy_perm x l)) in Hz.
      destruct Hz as [<- | Hz].
      * destruct (le_total x y) as [C | C]; [congruence | exact C].
      * rewrite Forall_forall in F. now apply F.
Qed.

Lemma sortBy_sorted (l : list A) : StronglySorted R (sortBy le l).
Proof.
  induction l as [| x l IH]; simpl; [constructor | now apply insertBy_sorted].
Qed.

End InsertionSort.

(** Byte-wise order on strings is transitive. *)
Lemma string_leb_trans (a b c : string) :
  (a <=? b)%string = true -> (b <=? c)%string = true ->
  (a <=? c)%string = true.
Proof.
  unfold String.leb. revert b c.
  induction a as [| x a IH]; intros [| y b] [| z c]; simpl;
    try reflexivity; try discriminate.
  unfold Ascii.compare.
  destruct (N.compare_spec (N_of_ascii x) (N_of_ascii y)) as [E1 | L1 | G1];
    destruct (N.compare_spec (N_of_ascii y) (N_of_ascii z)) as [E2 | L2 | G2];
    try discriminate; intros H1 H2.
  - rewrite E1, E2, N.compare_refl. now apply (IH b c).
  - rewrite E1. now rewrite (proj2 (N.compare_lt_iff _ _) L2).
  - rewrite <- E2. now rewrite (proj2 (N.compare_lt_iff _ _) L1).
  - now rewrite (proj2 (N.compare_lt_iff _ _) (N.lt_trans _ _ _ L1 L2)).
Qed.


Ltac case_length :=
  repeat match goal with |- context [(List.length ?l =? 0)%nat] =>
           destruct (List.length l =? 0)%nat end.

Lemma index_response (ingredient isAlcoholic sort : Param) (w : World) :
  fst (CocktailsController.index ingredient isAlcoholic sort w)
  = indexResponse ingredient isAlcoholic sort (db w).
Proof.
  unfold CocktailsController.index, indexResponse, ingredientStage,
    alcoholStage, sortStage, ordered, cocktailListResponse, whenPresent,
    rowsOfIngredient, alcoholicCocktailIds, castObjectId.
  destruct ingredient as [i |]; simpl;
    [destruct (i =? ""); simpl;
       [ | destruct (isValid i) eqn:V; simpl;
           [destruct (cast_defined i V) as (o & E);
            unfold castObjectId in E; rewrite V in E;
            run; unfold castObjectId; rewrite V, E | reflexivity]] | ];
    (destruct isAlcoholic as [a |]; simpl;
       [destruct (a =? ""); simpl; [ | destruct (a =? "true"); simpl] | ]);
    (destruct sort as [s |]; simpl;
       [destruct (s =? ""); simpl;
          [ | destruct (truthy (CocktailsController.sortOptions s)); simpl]
       | ]);
    run; unfold setId, matches; simpl; case_length; reflexivity.
Qed.





(** The order [sort=name] produces on the sample store. *)
Example cocktails_index_sort_name_bar :
  fst (CocktailsController.index None None (Some "name") (start bar))
  = ok (CocktailList [margarita; mojito]).
Proof. reflexivity. Qed.

(** A [sort] value that names an inherited property passes the test of
    [sortOptions] and orders by a path no cocktail has. *)
Example cocktails_index_sort_inherited_bar :
  fst (CocktailsController.index None None (Some "toString") (start bar))
  = ok (CocktailList [mojito; margarita]).
Proof. reflexivity. Qed.

(** The scenario of the specification: a Margarita made of lime and tequila
    is listed both under [isAlcoholic=true] and under [ingredient=<lime>]. *)
Example margarita_scenario :
  In margarita
     (returned (fst (CocktailsController.index None (Some "true") None
                       (start bar))))
  /\ In margarita
        (returned (fst (CocktailsController.index (Some limeId) None None
                          (start bar)))).
Proof. split; simpl; tauto. Qed.

(** ** The [isAlcoholic] filter replaces the [ingredient] filter *)




(** * Further properties of the controllers *)

(** ** What each write does to the world *)

Lemma find_app_fresh {A} (p : A -> bool) (l : list A) (d : A) :
  (forall a, In a l -> p a = false) -> p d = true ->
  List.find p (l ++ [d]) = Some d.
Proof.
  induction l as [| a l IH]; simpl; intros H Hd.
  - now rewrite Hd.
  - rewrite (H a (or_introl eq_refl)). apply IH; [ | exact Hd].
    intros b Hb. apply H. now right.
Qed.

Lemma find_updateFirst {D} (p : D -> bool) (f : D -> D) (l : list D) (d : D) :
  List.find p l = Some d -> p (f d) = true ->
  List.find p (updateFirst p f l) = Some (f d).
Proof.
  induction l as [| a l IH]; simpl; [discriminate | ].
  destruct (p a) eqn:E.
  - intros [= ->] H. simpl. now rewrite H.
  - intros H1 H2. simpl. rewrite E. now apply IH.
Qed.

Lemma map_updateFirst {D B} (g : D -> B) (p : D -> bool) (f : D -> D)
    (l : list D) :
  (forall d, g (f d) = g d) -> map g (updateFirst p f l) = map g l.
Proof.
  intro H. induction l as [| a l IH]; simpl; [reflexivity | ].
  destruct (p a); simpl; [now rewrite H | now rewrite IH].
Qed.

Lemma removeFirst_incl {D} (p : D -> bool) (l : list D) (a : D) :
  In a (removeFirst p l) -> In a l.
Proof.
  induction l as [| b l IH]; simpl; [tauto | ].
  destruct (p b); simpl; [tauto | ]. intros [H | H]; [now left | right; auto].
Qed.

Lemma removeFirst_keeps {D} (p : D -> bool) (l : list D) (a : D) :
  In a l -> p a = false -> In a (removeFirst p l).
Proof.
  induction l as [| b l IH]; simpl; [tauto | ].
  intros [-> | H] Hp.
  - rewrite Hp. now left.
  - destruct (p b); [exact H | right; auto].
Qed.

Lemma removeFirst_absent {D} (p : D -> bool) (l : list D) :
  List.find p l = None -> removeFirst p l = l.
Proof.
  induction l as [| b l IH]; simpl; [reflexivity | ].
  destruct (p b); [discriminate | ]. intro H. now rewrite IH.
Qed.

Lemma NoDup_map_removeFirst {D B} (g : D -> B) (p : D -> bool) (l : list D) :
  NoDup (map g l) -> NoDup (map g (removeFirst p l)).
Proof.
  induction l as [| b l IH]; simpl; intro N; [constructor | ].
  inversion N as [| ? ? Hb Hl]; subst.
  destruct (p b); [exact Hl | ]. simpl. constructor; [ | now apply IH].
  intro H. apply Hb. apply in_map_iff in H as (x & E & Hx).
  apply in_map_iff. exists x. split; [exact E | ].
  now apply removeFirst_incl in Hx.
Qed.

Lemma find_removeFirst_unique {D} (g : D -> ObjectId) (o : ObjectId)
    (l : list D) :
  NoDup (map g l) ->
  List.find (fun d => (g d =? o)%N)
            (removeFirst (fun d => (g d =? o)%N) l) = None.
Proof.
  induction l as [| b l IH]; simpl; intro N; [reflexivity | ].
  inversion N as [| ? ? Hb Hl]; subst.
  destruct (g b =? o)%N eqn:E.
  - apply N.eqb_eq in E. subst o. apply find_absent. intros a Ha.
    apply N.eqb_neq. intro Eq. apply Hb. rewrite <- Eq. now apply in_map.
  - simpl. rewrite E. now apply IH.
Qed.

Lemma cocktailExists_iff (o : ObjectId) (s : Store) :
  cocktailExists o s <-> In o (map Cocktail._id (cocktails s)).
Proof.
  unfold cocktailExists. rewrite in_map_iff. split; intros (c & H1 & H2);
    exists c; tauto.
Qed.

Lemma ingredientExists_iff (o : ObjectId) (s : Store) :
  ingredientExists o s <-> In o (map Ingredient._id (ingredients s)).
Proof.
  unfold ingredientExists. rewrite in_map_iff. split; intros (c & H1 & H2);
    exists c; tauto.
Qed.

(** What the create of a cocktail does, case by case. *)
Lemma cocktails_store_run (env : Env) (data : CocktailsController.Data)
    (w : World) :
  CocktailsController.store env data w
  = if truthy (CocktailsController.name data)
       && truthy (CocktailsController.category data)
       && truthy (CocktailsController.instructions data)
    then
      match castString (CocktailsController.name data),
            castString (CocktailsController.category data),
            castString (CocktailsController.instructions data) with
      | Some (Some n), Some (Some c), Some (Some i) =>
          let doc := Cocktail.mk (newId env) n c i (now env) (now env) in
          (created (CocktailDoc doc),
           mkWorld (mkStore (cocktails (db w) ++ [doc]) (ingredients (db w))
                            (cocktail_ingredients (db w)))
                   (calls w ++ [Create Cocktails]))
      | _, _, _ =>
          (internalServerError
             (Failure "Error creating cocktail" "Cast to string failed"), w)
      end
    else
      (badRequest (Message
         "Missing required fields: name, category, instructions"), w).
Proof.
  unfold CocktailsController.store.
  destruct (truthy (CocktailsController.name data)) eqn:Tn;
    [ | now destruct w].
  destruct (truthy (CocktailsController.category data)) eqn:Tc;
    [ | now destruct w].
  destruct (truthy (CocktailsController.instructions data)) eqn:Ti;
    [ | now destruct w].
  simpl.
  destruct (truthy_cases _ Tn) as [(n & Hn) | (r & Hn)].
  - rewrite (textOf_required _ _ Hn).
    assert (Cn : castString (CocktailsController.name data) = Some (Some n))
      by (destruct Hn; reflexivity).
    rewrite Cn.
    destruct (truthy_cases _ Tc) as [(c & Hc) | (rc & Hc)].
    + rewrite (textOf_required _ _ Hc).
      assert (Cc : castString (CocktailsController.category data)
                   = Some (Some c)) by (destruct Hc; reflexivity).
      rewrite Cc.
      destruct (truthy_cases _ Ti) as [(i & Hi) | (ri & Hi)].
      * rewrite (textOf_required _ _ Hi).
        assert (Ci : castString (CocktailsController.instructions data)
                     = Some (Some i)) by (destruct Hi; reflexivity).
        rewrite Ci. reflexivity.
      * rewrite Hi. simpl. now destruct w.
    + rewrite Hc. simpl. now destruct w.
  - rewrite Hn. simpl. now destruct w.
Qed.

Lemma cocktails_show_run (id : string) (o : ObjectId) (w : World) :
  castObjectId id = Some o ->
  CocktailsController.show id w
  = (match List.find (fun d => (Cocktail._id d =? o)%N) (cocktails (db w)) with
     | Some c => ok (CocktailDoc c)
     | None => notFound (Message "Cocktail not found")
     end,
     mkWorld (db w) (calls w ++ [FindById Cocktails o])).
Proof.
  intro E. unfold CocktailsController.show. rewrite (cast_valid id o E).
  run. rewrite E. simpl.
  now destruct (List.find _ (cocktails (db w))).
Qed.

Lemma cocktails_update_run (env : Env) (id : string) (o : ObjectId)
    (data : CocktailsController.Patch) (w : World) :
  castObjectId id = Some o ->
  CocktailsController.update env id data w
  = match List.find (fun d => (Cocktail._id d =? o)%N) (cocktails (db w)) with
    | Some c =>
        (ok (CocktailDoc (CocktailsController.assign env data c)),
         mkWorld (mkStore
                    (updateFirst (fun d => (Cocktail._id d =? o)%N)
                       (CocktailsController.assign env data) (cocktails (db w)))
                    (ingredients (db w)) (cocktail_ingredients (db w)))
                 (calls w ++ [FindByIdAndUpdate Cocktails o]))
    | None =>
        (notFound (Message "Cocktail not found"),
         mkWorld (db w) (calls w ++ [FindByIdAndUpdate Cocktails o]))
    end.
Proof.
  intro E. unfold CocktailsController.update. rewrite (cast_valid id o E).
  run. rewrite E. simpl.
  now destruct (List.find _ (cocktails (db w))).
Qed.

Lemma cocktails_destroy_run (id : string) (o : ObjectId) (w : World) :
  castObjectId id = Some o ->
  CocktailsController.destroy id w
  = match List.find (fun d => (Cocktail._id d =? o)%N) (cocktails (db w)) with
    | Some c =>
        (ok (Message "Cocktail and its ingredients were deleted successfully"),
         mkWorld (mkStore
                    (removeFirst (fun d => (Cocktail._id d =? o)%N)
                       (cocktails (db w)))
                    (ingredients (db w))
                    (filter (fun r => negb (CocktailIngredient.cocktailId r
                                            =? o)%N)
                       (cocktail_ingredients (db w))))
                 (calls w ++ [FindByIdAndDelete Cocktails o;
                              DeleteMany CocktailIngredients]))
    | None =>
        (notFound (Message "Cocktail not found"),
         mkWorld (db w) (calls w ++ [FindByIdAndDelete Cocktails o]))
    end.
Proof.
  intro E. unfold CocktailsController.destroy. rewrite (cast_valid id o E).
  run. rewrite E. simpl.
  destruct (List.find _ (cocktails (db w))) as [c |] eqn:F; simpl;
    [ | reflexivity].
  apply find_some in F as [_ F]. apply N.eqb_eq in F. rewrite F.
  now rewrite <- app_assoc.
Qed.

Lemma ingredients_show_run (id : string) (o : ObjectId) (w : World) :
  castObjectId id = Some o ->
  IngredientsController.show id w
  = (match List.find (fun d => (Ingredient._id d =? o)%N)
             (ingredients (db w)) with
     | Some i => ok (IngredientDoc i)
     | None => notFound (Message "Ingredient not found")
     end,
     mkWorld (db w) (calls w ++ [FindById Ingredients o])).
Proof.
  intro E. unfold IngredientsController.show. rewrite (cast_valid id o E).
  run. rewrite E. simpl.
  now destruct (List.find _ (ingredients (db w))).
Qed.

Lemma ingredients_update_run (env : Env) (id : string) (o : ObjectId)
    (p : IngredientsController.Patch) (w : World) :
  castObjectId id = Some o ->
  IngredientsController.update env id p w
  = match List.find (fun d => (Ingredient._id d =? o)%N)
            (ingredients (db w)) with
    | Some i =>
        (ok (IngredientDoc (IngredientsController.assign env p i)),
         mkWorld (mkStore (cocktails (db w))
                    (updateFirst (fun d => (Ingredient._id d =? o)%N)
                       (IngredientsController.assign env p)
                       (ingredients (db w)))
                    (cocktail_ingredients (db w)))
                 (calls w ++ [FindByIdAndUpdate Ingredients o]))
    | None =>
        (notFound (Message "Ingredient not found"),
         mkWorld (db w) (calls w ++ [FindByIdAndUpdate Ingredients o]))
    end.
Proof.
  intro E. unfold IngredientsController.update. rewrite (cast_valid id o E).
  run. rewrite E. simpl.
  now destruct (List.find _ (ingredients (db w))).
Qed.

Lemma ingredients_destroy_run (id : string) (o : ObjectId) (w : World) :
  castObjectId id = Some o ->
  IngredientsController.destroy id w
  = match List.find (fun d => (Ingredient._id d =? o)%N)
            (ingredients (db w)) with
    | Some i =>
        (ok (Message "Ingredient deleted successfully"),
         mkWorld (mkStore (cocktails (db w))
                    (removeFirst (fun d => (Ingredient._id d =? o)%N)
                       (ingredients (db w)))
                    (filter (fun r => negb (CocktailIngredient.ingredientId r
                                            =? o)%N)
                       (cocktail_ingredients (db w))))
                 (calls w ++ [FindByIdAndDelete Ingredients o;
                              DeleteMany CocktailIngredients]))
    | None =>
        (notFound (Message "Ingredient not found"),
         mkWorld (db w) (calls w ++ [FindByIdAndDelete Ingredients o]))
    end.
Proof.
  intro E. unfold IngredientsController.destroy. rewrite (cast_valid id o E).
  run. rewrite E. simpl.
  destruct (List.find _ (ingredients (db w))) as [i |] eqn:F; simpl;
    [ | reflexivity].
  apply find_some in F as [_ F]. apply N.eqb_eq in F. rewrite F.
  now rewrite <- app_assoc.
Qed.

Lemma join_show_run (id : string) (o : ObjectId) (w : World) :
  castObjectId id = Some o ->
  CocktailIngredientsController.show id w
  = (match List.find (fun d => (CocktailIngredient._id d =? o)%N)
             (cocktail_ingredients (db w)) with
     | Some r => ok (JoinPopulated (populate (db w) r))
     | None => notFound (Message "Cocktail ingredient not found")
     end,
     mkWorld (db w) (calls w ++ [FindById CocktailIngredients o])).
Proof.
  intro E. unfold CocktailIngredientsController.show.
  rewrite (cast_valid id o E). run. rewrite E. simpl.
  now destruct (List.find _ (cocktail_ingredients (db w))).
Qed.

Lemma join_destroy_run (id : string) (o : ObjectId) (w : World) :
  castObjectId id = Some o ->
  CocktailIngredientsController.destroy id w
  = match List.find (fun d => (CocktailIngredient._id d =? o)%N)
            (cocktail_ingredients (db w)) with
    | Some r =>
        (ok (Message "Cocktail ingredient deleted successfully"),
         mkWorld (mkStore (cocktails (db w)) (ingredients (db w))
                    (removeFirst (fun d => (CocktailIngredient._id d =? o)%N)
                       (cocktail_ingredients (db w))))
                 (calls w ++ [FindByIdAndDelete CocktailIngredients o]))
    | None =>
        (notFound (Message "Cocktail ingredient not found"),
         mkWorld (db w) (calls w ++ [FindByIdAndDelete CocktailIngredients o]))
    end.
Proof.
  intro E. unfold CocktailIngredientsController.destroy.
  rewrite (cast_valid id o E). run. rewrite E. simpl.
  now destruct (List.find _ (cocktail_ingredients (db w))).
Qed.

(** The create of a join row, case by case. *)
Lemma join_store_run (env : Env) (data : CocktailIngredientsController.Data)
    (w : World) :
  let c := CocktailIngredientsController.text
             (CocktailIngredientsController.cocktailId data) in
  let i := CocktailIngredientsController.text
             (CocktailIngredientsController.ingredientId data) in
  let q := CocktailIngredientsController.text
             (CocktailIngredientsController.quantity data) in
  CocktailIngredientsController.store env data w
  = if negb (present (CocktailIngredientsController.cocktailId data)
             && present (CocktailIngredientsController.ingredientId data)
             && present (CocktailIngredientsController.quantity data))
    then (badRequest (Message
            "Missing required fields: cocktailId, ingredientId, quantity"), w)
    else
      match castObjectId c, castObjectId i with
      | None, _ => (badRequest (Message "Invalid cocktail ID format"), w)
      | Some _, None => (badRequest (Message "Invalid ingredient ID format"), w)
      | Some co, Some io =>
          match List.find (fun d => (Cocktail._id d =? co)%N)
                  (cocktails (db w)) with
          | None =>
              (notFound (Message "Cocktail not found in database"),
               mkWorld (db w) (calls w ++ [FindById Cocktails co]))
          | Some _ =>
              match List.find (fun d => (Ingredient._id d =? io)%N)
                      (ingredients (db w)) with
              | None =>
                  (notFound (Message "Ingredient not found in database"),
                   mkWorld (db w)
                     (calls w ++ [FindById Cocktails co;
                                  FindById Ingredients io]))
              | Some _ =>
                  let doc := CocktailIngredient.mk (newId env) co io q
                               (now env) (now env) in
                  (created (JoinDoc doc),
                   mkWorld (mkStore (cocktails (db w)) (ingredients (db w))
                              (cocktail_ingredients (db w) ++ [doc]))
                     (calls w ++ [FindById Cocktails co;
                                  FindById Ingredients io;
                                  Create CocktailIngredients]))
              end
          end
      end.
Proof.
  intros c i q. subst c i q. unfold CocktailIngredientsController.store.
  destruct (present (CocktailIngredientsController.cocktailId data));
    [ | now destruct w].
  destruct (present (CocktailIngredientsController.ingredientId data));
    [ | now destruct w].
  destruct (present (CocktailIngredientsController.quantity data));
    [ | now destruct w].
  simpl.
  set (c := CocktailIngredientsController.text
              (CocktailIngredientsController.cocktailId data)).
  set (i := CocktailIngredientsController.text
              (CocktailIngredientsController.ingredientId data)).
  destruct (isValid c) eqn:Vc; simpl.
  - destruct (cast_defined c Vc) as (co & Ec). rewrite Ec.
    destruct (isValid i) eqn:Vi; simpl.
    + destruct (cast_defined i Vi) as (io & Ei). rewrite Ei.
      run. rewrite Ec. simpl.
      destruct (List.find _ (cocktails (db w))); simpl; [ | reflexivity].
      rewrite Ei. simpl.
      destruct (List.find _ (ingredients (db w))); simpl;
        rewrite <- !app_assoc; reflexivity.
    + unfold castObjectId at 1. rewrite Vi. now destruct w.
  - unfold castObjectId at 1. rewrite Vc. now destruct w.
Qed.

(** ** Creating a cocktail *)



(** ** Create, then read *)

(** X2: a cocktail or an ingredient that was created with an identifier not
    yet used in its collection is the document a following get-by-id on
    that identifier returns, with 200. *)
Theorem store_then_show (env : Env) (id : string) (w : World) :
  castObjectId id = Some (newId env) ->
  (forall data doc,
     ~ cocktailExists (newId env) (db w) ->
     fst (CocktailsController.store env data w) = created (CocktailDoc doc) ->
     fst (CocktailsController.show id
            (snd (CocktailsController.store env data w)))
     = ok (CocktailDoc doc))
  /\
  (forall data doc,
     ~ ingredientExists (newId env) (db w) ->
     fst (IngredientsController.store env data w)
     = created (IngredientDoc doc) ->
     fst (IngredientsController.show id
            (snd (IngredientsController.store env data w)))
     = ok (IngredientDoc doc)).
Proof.
  intro E. split; intros data doc Fresh.
  - rewrite (cocktails_show_run id _ _ E), cocktails_store_run.
    destruct (_ && _); simpl; [ | discriminate].
    destruct (castString (CocktailsController.name data)) as [[n |] |];
      try discriminate.
    destruct (castString (CocktailsController.category data)) as [[c |] |];
      try discriminate.
    destruct (castString (CocktailsController.instructions data))
      as [[i |] |]; try discriminate.
    intros [= <-]. simpl.
    rewrite find_app_fresh; [reflexivity | | apply N.eqb_refl].
    intros a Ha. apply N.eqb_neq. intro Eq. apply Fresh. now exists a.
  - rewrite (ingredients_show_run id _ _ E), ingredients_store_run.
    destruct (_ && _); simpl; [ | discriminate].
    destruct (castString (IngredientsController.name data)) as [[n |] |];
      try discriminate.
    destruct (castString (IngredientsController.description data)) as [d |];
      try discriminate.
    destruct (castString (IngredientsController.image data)) as [i |];
      try discriminate.
    intros [= <-]. simpl.
    rewrite find_app_fresh; [reflexivity | | apply N.eqb_refl].
    intros a Ha. apply N.eqb_neq. intro Eq. apply Fresh. now exists a.
Qed.

Lemma store_then_show_witness :
  fst (CocktailsController.show "0000000000000000000001f4"
         (snd (CocktailsController.store env0
                 (CocktailsController.mkData (JString "Daiquiri")
                    (JString "Sour") (JString "Shake")) (start bar))))
  = ok (CocktailDoc (Cocktail.mk 500%N "Daiquiri" "Sour" "Shake" 100 100)).
Proof.
  apply (store_then_show env0 "0000000000000000000001f4" (start bar)).
  - reflexivity.
  - intros (c & Hin & Hc). simpl in Hin.
    destruct Hin as [<- | [<- | []]]; vm_compute in Hc; discriminate Hc.
  - reflexivity.
Defined.

(** X3: a join row that was created with an identifier not yet used by a
    row is what a following get-by-id returns, with 200, and both of its
    references come back expanded into stored documents with the
    referenced identifiers. *)
Theorem join_store_then_show
    (env : Env) (id : string) (data : CocktailIngredientsController.Data)
    (doc : CocktailIngredient.t) (w : World) :
  castObjectId id = Some (newId env) ->
  ~ joinExists (newId env) (db w) ->
  fst (CocktailIngredientsController.store env data w)
  = created (JoinDoc doc) ->
  exists c i,
    fst (CocktailIngredientsController.show id
           (snd (CocktailIngredientsController.store env data w)))
    = ok (JoinPopulated (mkPopulated doc (Some c) (Some i)))
    /\ In c (cocktails (db w))
    /\ In i (ingredients (db w))
    /\ Cocktail._id c = CocktailIngredient.cocktailId doc
    /\ Ingredient._id i = CocktailIngredient.ingredientId doc.
Proof.
  intros E Fresh. rewrite (join_show_run id _ _ E). clear E.
  pose proof (join_store_run env data w) as R. simpl in R. rewrite R. clear R.
  destruct (negb _); [discriminate | ].
  destruct (castObjectId _) as [co |]; [ | discriminate].
  destruct (castObjectId _) as [io |]; [ | discriminate].
  destruct (List.find _ (cocktails (db w))) as [c |] eqn:Fc; [ | discriminate].
  destruct (List.find _ (ingredients (db w))) as [i |] eqn:Fi;
    [ | discriminate].
  simpl. intros [= <-]. exists c, i.
  rewrite find_app_fresh; [ | | apply N.eqb_refl].
  - unfold populate. simpl. rewrite Fc, Fi.
    apply find_some in Fc as [Hc Ec], Fi as [Hi Ei].
    apply N.eqb_eq in Ec, Ei. auto.
  - intros a Ha. apply N.eqb_neq. intro Eq. apply Fresh. now exists a.
Qed.

Lemma join_store_then_show_witness :
  exists c i,
    fst (CocktailIngredientsController.show "0000000000000000000001f4"
           (snd (CocktailIngredientsController.store env0
                   (CocktailIngredientsController.mkData
                      (Some mojitoId) (Some tequilaId) (Some "1 oz"))
                   (start bar))))
    = ok (JoinPopulated
            (mkPopulated
               (CocktailIngredient.mk 500%N (oid mojitoId) (oid tequilaId)
                  "1 oz" 100 100) (Some c) (Some i))).
Proof.
  destruct (join_store_then_show env0 "0000000000000000000001f4"
              (CocktailIngredientsController.mkData
                 (Some mojitoId) (Some tequilaId) (Some "1 oz"))
              (CocktailIngredient.mk 500%N (oid mojitoId) (oid tequilaId)
                 "1 oz" 100 100) (start bar))
    as (c & i & H & _).
  - reflexivity.
  - intros (r & Hin & Hr). simpl in Hin.
    destruct Hin as [<- | [<- | [<- | []]]]; vm_compute in Hr;
      discriminate Hr.
  - reflexivity.
  - exists c, i. exact H.
Defined.

(** ** Missing documents *)

Lemma cocktail_absent (o : ObjectId) (s : Store) :
  ~ cocktailExists o s ->
  List.find (fun d => (Cocktail._id d =? o)%N) (cocktails s) = None.
Proof.
  intro H. destruct (find_cocktail o s) as [[X _] | [_ F]]; tauto.
Qed.

Lemma ingredient_absent (o : ObjectId) (s : Store) :
  ~ ingredientExists o s ->
  List.find (fun d => (Ingredient._id d =? o)%N) (ingredients s) = None.
Proof.
  intro H. destruct (find_ingredient o s) as [[X _] | [_ F]]; tauto.
Qed.

Lemma join_absent (o : ObjectId) (s : Store) :
  ~ joinExists o s ->
  List.find (fun d => (CocktailIngredient._id d =? o)%N)
            (cocktail_ingredients s) = None.
Proof.
  intro H. apply find_absent. intros a Ha. apply N.eqb_neq.
  intro E. apply H. now exists a.
Qed.

(** X4: under a well-formed identifier that no document of the collection
    has, get-by-id and delete answer 404 and leave the store as it was,
    after a single store call.  In particular the delete of a missing
    cocktail or ingredient does not run the cascade: join rows that still
    carry the identifier stay. *)
Theorem missing_document_is_404 (id : string) (o : ObjectId) (w : World) :
  castObjectId id = Some o ->
  (~ cocktailExists o (db w) ->
   CocktailsController.show id w
   = (notFound (Message "Cocktail not found"),
      mkWorld (db w) (calls w ++ [FindById Cocktails o]))
   /\ CocktailsController.destroy id w
      = (notFound (Message "Cocktail not found"),
         mkWorld (db w) (calls w ++ [FindByIdAndDelete Cocktails o]))
   /\ rowsOfCocktail o (db (snd (CocktailsController.destroy id w)))
      = rowsOfCocktail o (db w))
  /\
  (~ ingredientExists o (db w) ->
   IngredientsController.show id w
   = (notFound (Message "Ingredient not found"),
      mkWorld (db w) (calls w ++ [FindById Ingredients o]))
   /\ IngredientsController.destroy id w
      = (notFound (Message "Ingredient not found"),
         mkWorld (db w) (calls w ++ [FindByIdAndDelete Ingredients o]))
   /\ rowsOfIngredient o (db (snd (IngredientsController.destroy id w)))
      = rowsOfIngredient o (db w))
  /\
  (~ joinExists o (db w) ->
   CocktailIngredientsController.show id w
   = (notFound (Message "Cocktail ingredient not found"),
      mkWorld (db w) (calls w ++ [FindById CocktailIngredients o]))
   /\ CocktailIngredientsController.destroy id w
      = (notFound (Message "Cocktail ingredient not found"),
         mkWorld (db w)
           (calls w ++ [FindByIdAndDelete CocktailIngredients o]))).
Proof.
  intro E. split; [ | split]; intro A.
  - apply cocktail_absent in A.
    rewrite (cocktails_show_run id o w E), (cocktails_destroy_run id o w E), A.
    repeat split.
  - apply ingredient_absent in A.
    rewrite (ingredients_show_run id o w E),
      (ingredients_destroy_run id o w E), A.
    repeat split.
  - apply join_absent in A.
    now rewrite (join_show_run id o w E), (join_destroy_run id o w E), A.
Qed.

Lemma missing_document_is_404_witness :
  status (fst (CocktailsController.destroy "ffffffffffffffffffffffff"
                 (start bar))) = 404%Z
  /\ db (snd (CocktailsController.destroy "ffffffffffffffffffffffff"
                (start bar))) = bar.
Proof.
  destruct (missing_document_is_404 "ffffffffffffffffffffffff"
              (oid "ffffffffffffffffffffffff") (start bar) eq_refl)
    as [T _].
  destruct T as (_ & T & _).
  - intros (c & Hin & Hc). simpl in Hin.
    destruct Hin as [<- | [<- | []]]; vm_compute in Hc; discriminate Hc.
  - rewrite T. split; reflexivity.
Defined.

(** ** What a delete leaves in place *)

Lemma length_removeFirst {D} (p : D -> bool) (l : list D) (d : D) :
  List.find p l = Some d ->
  S (List.length (removeFirst p l)) = List.length l.
Proof.
  induction l as [| a l IH]; simpl; [discriminate | ].
  destruct (p a); [reflexivity | ]. intro H. simpl. now rewrite IH.
Qed.

(** X5: the delete of an existing cocktail removes one cocktail and exactly
    the join rows that reference it: the ingredients are untouched, every
    other cocktail is still stored, and the remaining join rows are the
    former ones that reference another cocktail, in their order.  The
    delete of an existing ingredient does the same on its side, and the
    delete of a join row removes that one row and nothing else. *)
Theorem destroy_frame (id : string) (o : ObjectId) (w : World) :
  castObjectId id = Some o ->
  (cocktailExists o (db w) ->
   let s' := db (snd (CocktailsController.destroy id w)) in
   ingredients s' = ingredients (db w)
   /\ cocktail_ingredients s'
      = filter (fun r => negb (CocktailIngredient.cocktailId r =? o)%N)
               (cocktail_ingredients (db w))
   /\ S (List.length (cocktails s')) = List.length (cocktails (db w))
   /\ forall c, In c (cocktails (db w)) -> Cocktail._id c <> o ->
                In c (cocktails s'))
  /\
  (ingredientExists o (db w) ->
   let s' := db (snd (IngredientsController.destroy id w)) in
   cocktails s' = cocktails (db w)
   /\ cocktail_ingredients s'
      = filter (fun r => negb (CocktailIngredient.ingredientId r =? o)%N)
               (cocktail_ingredients (db w))
   /\ S (List.length (ingredients s')) = List.length (ingredients (db w))
   /\ forall i, In i (ingredients (db w)) -> Ingredient._id i <> o ->
                In i (ingredients s'))
  /\
  (joinExists o (db w) ->
   let s' := db (snd (CocktailIngredientsController.destroy id w)) in
   status (fst (CocktailIngredientsController.destroy id w)) = 200%Z
   /\ cocktails s' = cocktails (db w)
   /\ ingredients s' = ingredients (db w)
   /\ S (List.length (cocktail_ingredients s'))
      = List.length (cocktail_ingredients (db w))
   /\ forall r, In r (cocktail_ingredients (db w)) ->
                CocktailIngredient._id r <> o ->
                In r (cocktail_ingredients s')).
Proof.
  intro E. split; [ | split]; intros X s'; subst s'.
  - destruct (find_cocktail o (db w)) as [[_ (c & F)] | [N _]]; [ | tauto].
    rewrite (cocktails_destroy_run id o w E), F. simpl.
    repeat split; [now apply (length_removeFirst _ _ c) | ].
    intros c' Hin Hne. apply removeFirst_keeps; [exact Hin | ].
    now apply N.eqb_neq.
  - destruct (find_ingredient o (db w)) as [[_ (i & F)] | [N _]]; [ | tauto].
    rewrite (ingredients_destroy_run id o w E), F. simpl.
    repeat split; [now apply (length_removeFirst _ _ i) | ].
    intros i' Hin Hne. apply removeFirst_keeps; [exact Hin | ].
    now apply N.eqb_neq.
  - destruct (find_exists (fun d => (CocktailIngredient._id d =? o)%N)
                (cocktail_ingredients (db w))) as (r & F & _).
    { destruct X as (r & Hin & Hr). exists r. split; [exact Hin | ].
      now apply N.eqb_eq. }
    rewrite (join_destroy_run id o w E), F. simpl.
    repeat split; [now apply (length_removeFirst _ _ r) | ].
    intros r' Hin Hne. apply removeFirst_keeps; [exact Hin | ].
    now apply N.eqb_neq.
Qed.

Lemma destroy_frame_witness :
  cocktail_ingredients
    (db (snd (CocktailsController.destroy margaritaId (start bar))))
  = [mojitoLime]
  /\ ingredients
       (db (snd (CocktailsController.destroy margaritaId (start bar))))
     = [lime; tequila].
Proof.
  destruct (destroy_frame margaritaId (oid margaritaId) (start bar) eq_refl)
    as [T _].
  destruct T as (T1 & T2 & _).
  - exists margarita. split; [simpl; tauto | reflexivity].
  - split; [rewrite T2; reflexivity | rewrite T1; reflexivity].
Defined.

(** ** Delete, then read *)

(** X6: when identifiers are unique in the collection, a document that was
    deleted with 200 is gone: a following get-by-id and a second delete on
    the same identifier both answer 404. *)
Theorem destroy_then_gone (id : string) (w : World) :
  (NoDup (map Cocktail._id (cocktails (db w))) ->
   status (fst (CocktailsController.destroy id w)) = 200%Z ->
   let w' := snd (CocktailsController.destroy id w) in
   status (fst (CocktailsController.show id w')) = 404%Z
   /\ status (fst (CocktailsController.destroy id w')) = 404%Z)
  /\
  (NoDup (map Ingredient._id (ingredients (db w))) ->
   status (fst (IngredientsController.destroy id w)) = 200%Z ->
   let w' := snd (IngredientsController.destroy id w) in
   status (fst (IngredientsController.show id w')) = 404%Z
   /\ status (fst (IngredientsController.destroy id w')) = 404%Z)
  /\
  (NoDup (map CocktailIngredient._id (cocktail_ingredients (db w))) ->
   status (fst (CocktailIngredientsController.destroy id w)) = 200%Z ->
   let w' := snd (CocktailIngredientsController.destroy id w) in
   status (fst (CocktailIngredientsController.show id w')) = 404%Z
   /\ status (fst (CocktailIngredientsController.destroy id w')) = 404%Z).
Proof.
  destruct (isValid id) eqn:V.
  - destruct (cast_defined id V) as (o & E).
    split; [ | split]; intros N.
    + rewrite (cocktails_destroy_run id o w E).
      destruct (List.find _ (cocktails (db w))); [ | discriminate].
      intros _ w'. subst w'.
      rewrite (cocktails_show_run id o _ E), (cocktails_destroy_run id o _ E).
      simpl. now rewrite (find_removeFirst_unique Cocktail._id o _ N).
    + rewrite (ingredients_destroy_run id o w E).
      destruct (List.find _ (ingredients (db w))); [ | discriminate].
      intros _ w'. subst w'.
      rewrite (ingredients_show_run id o _ E),
        (ingredients_destroy_run id o _ E).
      simpl. now rewrite (find_removeFirst_unique Ingredient._id o _ N).
    + rewrite (join_destroy_run id o w E).
      destruct (List.find _ (cocktail_ingredients (db w))); [ | discriminate].
      intros _ w'. subst w'.
      rewrite (join_show_run id o _ E), (join_destroy_run id o _ E).
      simpl.
      now rewrite (find_removeFirst_unique CocktailIngredient._id o _ N).
  - split; [ | split]; intros _;
      unfold CocktailsController.destroy, IngredientsController.destroy,
        CocktailIngredientsController.destroy; rewrite V; simpl; discriminate.
Qed.

Lemma destroy_then_gone_witness :
  status (fst (CocktailsController.show margaritaId
                 (snd (CocktailsController.destroy margaritaId (start bar)))))
  = 404%Z.
Proof.
  destruct (destroy_then_gone margaritaId (start bar)) as [T _].
  apply T.
  - simpl. repeat constructor; simpl; intuition discriminate.
  - reflexivity.
Defined.

(** ** Update, then read *)

(** X7: when the update of a cocktail or of an ingredient answers 200, the
    document it returns keeps the identifier and the creation time of the
    stored one and carries the current time as [updatedAt]; a following
    get-by-id returns that same document; the identifiers stored in the
    collection are the same as before, in the same order, and the other
    collections are untouched. *)
Theorem update_then_show (env : Env) (id : string) (w : World) :
  (forall patch,
     status (fst (CocktailsController.update env id patch w)) = 200%Z ->
     let w' := snd (CocktailsController.update env id patch w) in
     exists o c c',
       castObjectId id = Some o
       /\ List.find (fun d => (Cocktail._id d =? o)%N) (cocktails (db w))
          = Some c
       /\ fst (CocktailsController.update env id patch w) = ok (CocktailDoc c')
       /\ Cocktail._id c' = o
       /\ Cocktail.createdAt c' = Cocktail.createdAt c
       /\ Cocktail.updatedAt c' = now env
       /\ fst (CocktailsController.show id w') = ok (CocktailDoc c')
       /\ map Cocktail._id (cocktails (db w'))
          = map Cocktail._id (cocktails (db w))
       /\ ingredients (db w') = ingredients (db w)
       /\ cocktail_ingredients (db w') = cocktail_ingredients (db w))
  /\
  (forall patch,
     status (fst (IngredientsController.update env id patch w)) = 200%Z ->
     let w' := snd (IngredientsController.update env id patch w) in
     exists o i i',
       castObjectId id = Some o
       /\ List.find (fun d => (Ingredient._id d =? o)%N) (ingredients (db w))
          = Some i
       /\ fst (IngredientsController.update env id patch w)
          = ok (IngredientDoc i')
       /\ Ingredient._id i' = o
       /\ Ingredient.createdAt i' = Ingredient.createdAt i
       /\ Ingredient.updatedAt i' = now env
       /\ fst (IngredientsController.show id w') = ok (IngredientDoc i')
       /\ map Ingredient._id (ingredients (db w'))
          = map Ingredient._id (ingredients (db w))
       /\ cocktails (db w') = cocktails (db w)
       /\ cocktail_ingredients (db w') = cocktail_ingredients (db w)).
Proof.
  destruct (isValid id) eqn:V.
  - destruct (cast_defined id V) as (o & E). split.
    + intros patch. rewrite (cocktails_update_run env id o patch w E).
      destruct (List.find _ (cocktails (db w))) as [c |] eqn:F;
        [ | discriminate].
      intros _ w'. subst w'.
      exists o, c, (CocktailsController.assign env patch c). simpl.
      rewrite (cocktails_show_run id o _ E). simpl.
      pose proof F as F'. apply find_some in F' as [_ Hc].
      apply N.eqb_eq in Hc.
      rewrite (find_updateFirst _ _ _ c F) by (simpl; now apply N.eqb_eq).
      rewrite map_updateFirst by reflexivity.
      repeat split; assumption.
    + intros patch. rewrite (ingredients_update_run env id o patch w E).
      destruct (List.find _ (ingredients (db w))) as [i |] eqn:F;
        [ | discriminate].
      intros _ w'. subst w'.
      exists o, i, (IngredientsController.assign env patch i). simpl.
      rewrite (ingredients_show_run id o _ E). simpl.
      pose proof F as F'. apply find_some in F' as [_ Hi].
      apply N.eqb_eq in Hi.
      rewrite (find_updateFirst _ _ _ i F) by (simpl; now apply N.eqb_eq).
      rewrite map_updateFirst by reflexivity.
      repeat split; assumption.
  - unfold CocktailsController.update, IngredientsController.update.
    rewrite V. split; intros patch; discriminate.
Qed.

Lemma update_then_show_witness :
  exists o c c',
    castObjectId margaritaId = Some o
    /\ List.find (fun d => (Cocktail._id d =? o)%N) (cocktails bar) = Some c
    /\ fst (CocktailsController.update env0 margaritaId
              (CocktailsController.mkPatch None (Some "Classic") None)
              (start bar)) = ok (CocktailDoc c')
    /\ Cocktail.updatedAt c' = 100%Z.
Proof.
  destruct (update_then_show env0 margaritaId (start bar)) as [T _].
  destruct (T (CocktailsController.mkPatch None (Some "Classic") None))
    as (o & c & c' & H0 & H1 & H2 & _ & _ & H5 & _).
  - reflexivity.
  - exists o, c, c'. repeat split; assumption.
Defined.

(** ** Reads do not write *)

Lemma ingredient_list_keeps_store (w : World) :
  db (snd (IngredientsController.index w)) = db w.
Proof. reflexivity. Qed.

(** X8: the two filtered lists, the ingredient list and the three
    get-by-id actions never change the store, whatever the request. *)
Theorem reads_leave_store_unchanged (w : World) :
  (forall ingredient isAlcoholic sort,
     db (snd (CocktailsController.index ingredient isAlcoholic sort w)) = db w)
  /\ (forall cocktailId ingredientId,
        db (snd (CocktailIngredientsController.index
                   cocktailId ingredientId w)) = db w)
  /\ db (snd (IngredientsController.index w)) = db w
  /\ (forall id, db (snd (CocktailsController.show id w)) = db w)
  /\ (forall id, db (snd (IngredientsController.show id w)) = db w)
  /\ (forall id, db (snd (CocktailIngredientsController.show id w)) = db w).
Proof.
  repeat match goal with |- _ /\ _ => split end.
  - intros ingredient isAlcoholic sort.
    unfold CocktailsController.index, whenPresent.
    destruct ingredient as [i |]; simpl;
      [destruct (i =? ""); simpl;
         [ | destruct (isValid i) eqn:V; simpl;
             [destruct (cast_defined i V) as (o & E); run; rewrite E
             | reflexivity]] | ];
      (destruct isAlcoholic as [a |]; simpl;
         [destruct (a =? ""); simpl; [ | destruct (a =? "true"); simpl] | ]);
      (destruct sort as [s |]; simpl;
         [destruct (s =? ""); simpl;
            [ | destruct (truthy (CocktailsController.sortOptions s)); simpl]
         | ]);
      run; unfold setId, matches; simpl; case_length; reflexivity.
  - intros cocktailId ingredientId.
    unfold CocktailIngredientsController.index, whenPresent.
    destruct cocktailId as [c |]; simpl;
      [destruct (c =? ""); simpl;
         [ | destruct (isValid c) eqn:Vc; simpl;
             [destruct (cast_defined c Vc) as (co & Ec); run; rewrite Ec
             | reflexivity]] | ];
      (destruct ingredientId as [i |]; simpl;
         [destruct (i =? ""); simpl;
            [ | destruct (isValid i) eqn:Vi; simpl;
                [destruct (cast_defined i Vi) as (io & Ei); run; rewrite Ei
                | reflexivity]] | ]);
      run; unfold setId, matches; simpl; case_length; reflexivity.
  - apply ingredient_list_keeps_store.
  - intro id. destruct (isValid id) eqn:V.
    + destruct (cast_defined id V) as (o & E).
      now rewrite (cocktails_show_run id o w E).
    + unfold CocktailsController.show. now rewrite V.
  - intro id. destruct (isValid id) eqn:V.
    + destruct (cast_defined id V) as (o & E).
      now rewrite (ingredients_show_run id o w E).
    + unfold IngredientsController.show. now rewrite V.
  - intro id. destruct (isValid id) eqn:V.
    + destruct (cast_defined id V) as (o & E).
      now rewrite (join_show_run id o w E).
    + unfold CocktailIngredientsController.show. now rewrite V.
Qed.

(** ** The cocktail list, filter by filter *)

(** X9: without any filter the cocktail list answers 200 with every stored
    cocktail in store order, or 404 when there is none.  With a well-formed
    [ingredient] filter alone it carries exactly the stored cocktails that
    some join row pairs with that ingredient, whether or not the ingredient
    itself is stored. *)
Theorem cocktails_index_by_ingredient (w : World) :
  fst (CocktailsController.index None None None w)
  = cocktailListResponse (cocktails (db w))
  /\
  (forall ingredient io c,
     castObjectId ingredient = Some io ->
     (In c (returned (fst (CocktailsController.index
                             (Some ingredient) None None w)))
      <-> In c (cocktails (db w))
          /\ exists r, In r (cocktail_ingredients (db w))
                       /\ CocktailIngredient.cocktailId r = Cocktail._id c
                       /\ CocktailIngredient.ingredientId r = io)).
Proof.
  split.
  - rewrite index_response. unfold indexResponse. simpl.
    unfold matches. simpl. now rewrite filter_true.
  - intros ingredient io c E.
    assert (I : ingredient <> "")
      by (intros ->; apply cast_valid in E; discriminate).
    apply String.eqb_neq in I.
    rewrite index_response. unfold indexResponse, ingredientStage.
    rewrite I, E. simpl.
    rewrite (proj1 (returned_cocktailListResponse _)), filter_In.
    unfold matches. simpl.
    rewrite idIn_spec, nodup_In, in_map_iff. unfold rowsOfIngredient.
    split.
    + intros (Hc & r & Er & Hr). apply filter_In in Hr as [Hr Hi].
      apply N.eqb_eq in Hi. split; [exact Hc | ]. now exists r.
    + intros (Hc & r & Hr & Er & Hi). split; [exact Hc | ].
      exists r. split; [exact Er | ]. apply filter_In.
      split; [exact Hr | now apply N.eqb_eq].
Qed.

Lemma cocktails_index_by_ingredient_witness :
  In mojito (returned (fst (CocktailsController.index (Some limeId) None None
                              (start bar)))).
Proof.
  destruct (cocktails_index_by_ingredient (start bar)) as [_ T].
  apply (T limeId (oid limeId) mojito eq_refl).
  split; [simpl; tauto | ].
  exists mojitoLime. simpl. tauto.
Defined.

(** X10: any value of [isAlcoholic] other than the empty string and
    ["true"] (for instance ["TRUE"], ["1"] or ["yes"]) selects the same
    cocktails as ["false"]: the list compares the parameter with the string
    ["true"] and takes everything else as a request for the non-alcoholic
    ones. *)
Theorem isAlcoholic_other_values_mean_false
    (ingredient sort : Param) (isAlcoholic : string) (w : World) :
  isAlcoholic <> "" ->
  isAlcoholic <> "true" ->
  fst (CocktailsController.index ingredient (Some isAlcoholic) sort w)
  = fst (CocktailsController.index ingredient (Some "false") sort w).
Proof.
  intros H1 H2. rewrite !index_response.
  unfold indexResponse, alcoholStage.
  apply String.eqb_neq in H1, H2. now rewrite H1, H2.
Qed.

Lemma isAlcoholic_other_values_mean_false_witness :
  fst (CocktailsController.index None (Some "TRUE") None (start bar))
  = ok (CocktailList [mojito]).
Proof.
  rewrite (isAlcoholic_other_values_mean_false None None "TRUE"
             (start bar)); [reflexivity | discriminate | discriminate].
Defined.

(** ** Sorting by the other fields *)

Lemma zleb_total (a b : Z) : (a <=? b)%Z = true \/ (b <=? a)%Z = true.
Proof. rewrite !Z.leb_le. lia. Qed.

Lemma zleb_trans (a b c : Z) :
  (a <=? b)%Z = true -> (b <=? c)%Z = true -> (a <=? c)%Z = true.
Proof. rewrite !Z.leb_le. lia. Qed.

(** X11: with [sort=category] the returned cocktails are in non-decreasing
    byte-wise order of [category], and with [sort=date] in non-decreasing
    order of [createdAt].  For every [sort] value the list either answers
    400 or returns the cocktails of the same request without [sort],
    reordered, under the same status: sorting never adds or drops a
    cocktail. *)
Theorem sort_by_category_and_date
    (ingredient isAlcoholic : Param) (w : World) :
  let plain := fst (CocktailsController.index ingredient isAlcoholic None w) in
  StronglySorted categoryLe
    (returned (fst (CocktailsController.index
                      ingredient isAlcoholic (Some "category") w)))
  /\ StronglySorted createdLe
       (returned (fst (CocktailsController.index
                         ingredient isAlcoholic (Some "date") w)))
  /\ forall sort,
       let sorted :=
         fst (CocktailsController.index ingredient isAlcoholic sort w) in
       status sorted = 400%Z
       \/ (Permutation (returned sorted) (returned plain)
           /\ status sorted = status plain).
Proof.
  intro plain. subst plain. rewrite !index_response. unfold indexResponse.
  destruct (ingredientStage ingredient (db w)) as [q |] eqn:Q; simpl.
  - set (l := filter _ _). split; [ | split].
    + rewrite (proj1 (returned_cocktailListResponse _)).
      apply (sortBy_sorted Cocktail.t (cocktailOrder "category")); simpl.
      * intros a b. apply String.leb_total.
      * intros a b c. apply string_leb_trans.
    + rewrite (proj1 (returned_cocktailListResponse _)).
      apply (sortBy_sorted Cocktail.t (cocktailOrder "createdAt")); simpl.
      * intros a b. apply zleb_total.
      * intros a b c. apply zleb_trans.
    + intros sort.
      rewrite index_response. unfold indexResponse. rewrite Q. fold l.
      destruct (sortStage sort) as [[f |] |]; simpl; [ | | now left].
      * right. rewrite !(proj1 (returned_cocktailListResponse _)).
        split; [apply sortBy_perm | ].
        unfold cocktailListResponse.
        rewrite (Permutation_length (sortBy_perm _ (cocktailOrder f) l)).
        now destruct (List.length l =? 0)%nat.
      * right. split; reflexivity.
  - split; [constructor | split; [constructor | ]]. intros sort. left.
    rewrite index_response. unfold indexResponse. now rewrite Q.
Qed.

(** ** The join list, filter by filter *)

Lemma join_index_response (cocktailId ingredientId : Param) (w : World) :
  fst (CocktailIngredientsController.index cocktailId ingredientId w)
  = joinIndexResponse cocktailId ingredientId (db w).
Proof.
  unfold CocktailIngredientsController.index, joinIndexResponse,
    joinFilterStage, whenPresent, castObjectId.
  destruct cocktailId as [c |]; simpl;
    [destruct (c =? ""); simpl;
       [ | destruct (isValid c) eqn:Vc; simpl;
           [destruct (cast_defined c Vc) as (co & Ec);
            unfold castObjectId in Ec; rewrite Vc in Ec;
            run; unfold castObjectId; rewrite Vc, Ec
           | reflexivity]] | ];
    (destruct ingredientId as [i |]; simpl;
       [destruct (i =? ""); simpl;
          [ | destruct (isValid i) eqn:Vi; simpl;
              [destruct (cast_defined i Vi) as (io & Ei);
               unfold castObjectId in Ei; rewrite Vi in Ei;
               run; unfold castObjectId; rewrite ?Vi, ?Ei
              | reflexivity]] | ]);
    run; unfold setId, matches; simpl;
    rewrite ?joinListResponse_spec; case_length; reflexivity.
Qed.

(** X12: without a filter the join list answers 200 with every stored row,
    references expanded, in store order, or 404 when there is none.  When
    row identifiers are unique, a well-formed [cocktailId] filter alone
    selects exactly the rows of that cocktail and a well-formed
    [ingredientId] filter alone exactly the rows of that ingredient. *)
Theorem join_index_single_filter (w : World) :
  fst (CocktailIngredientsController.index None None w)
  = joinListResponse (db w) (cocktail_ingredients (db w))
  /\
  (NoDup (map CocktailIngredient._id (cocktail_ingredients (db w))) ->
   forall id o,
     castObjectId id = Some o ->
     fst (CocktailIngredientsController.index (Some id) None w)
     = joinListResponse (db w) (rowsOfCocktail o (db w))
     /\ fst (CocktailIngredientsController.index None (Some id) w)
        = joinListResponse (db w) (rowsOfIngredient o (db w))).
Proof.
  split.
  - rewrite join_index_response. unfold joinIndexResponse. simpl.
    unfold matches. simpl. now rewrite filter_true.
  - intros N id o E.
    assert (I : id <> "") by (intros ->; apply cast_valid in E; discriminate).
    apply String.eqb_neq in I.
    rewrite !join_index_response. unfold joinIndexResponse, joinFilterStage.
    rewrite I, E. unfold matches. simpl. split.
    + now rewrite (filter_by_ids_of_filter CocktailIngredient._id
                     (fun r => (CocktailIngredient.cocktailId r =? o)%N) _ N).
    + now rewrite (filter_by_ids_of_filter CocktailIngredient._id
                     (fun r => (CocktailIngredient.ingredientId r =? o)%N) _ N).
Qed.

Lemma join_index_single_filter_witness :
  fst (CocktailIngredientsController.index (Some mojitoId) None (start bar))
  = ok (JoinList [mkPopulated mojitoLime (Some mojito) (Some lime)]).
Proof.
  destruct (join_index_single_filter (start bar)) as [_ T].
  destruct (T ltac:(simpl; repeat constructor; simpl; intuition discriminate)
              mojitoId (oid mojitoId) eq_refl) as [H _].
  rewrite H. reflexivity.
Defined.

(** X13: every row the join list returns is a stored row, and each of its
    two references is expanded into a stored document with the referenced
    identifier, or is null exactly when no such document is stored (a
    dangling reference). *)
Theorem join_index_expands_references
    (cocktailId ingredientId : Param) (w : World) (p : Populated) :
  In p (returnedRows (fst (CocktailIngredientsController.index
                             cocktailId ingredientId w))) ->
  In (row p) (cocktail_ingredients (db w))
  /\ match cocktail p with
     | Some c => In c (cocktails (db w))
                 /\ Cocktail._id c = CocktailIngredient.cocktailId (row p)
     | None => ~ cocktailExists (CocktailIngredient.cocktailId (row p)) (db w)
     end
  /\ match ingredient p with
     | Some i => In i (ingredients (db w))
                 /\ Ingredient._id i = CocktailIngredient.ingredientId (row p)
     | None =>
         ~ ingredientExists (CocktailIngredient.ingredientId (row p)) (db w)
     end.
Proof.
  rewrite join_index_response. unfold joinIndexResponse.
  destruct (joinFilterStage cocktailId _ _ _) as [q |]; [ | intros []].
  destruct (joinFilterStage ingredientId _ _ _) as [q' |]; [ | intros []].
  set (l := filter _ _).
  assert (L : forall r, In r l -> In r (cocktail_ingredients (db w))).
  { intros r Hr. now apply filter_In in Hr. }
  unfold joinListResponse.
  assert (R : In p (map (populate (db w)) l) ->
              In (row p) (cocktail_ingredients (db w))
              /\ match cocktail p with
                 | Some c => In c (cocktails (db w))
                     /\ Cocktail._id c = CocktailIngredient.cocktailId (row p)
                 | None => ~ cocktailExists
                               (CocktailIngredient.cocktailId (row p)) (db w)
                 end
              /\ match ingredient p with
                 | Some i => In i (ingredients (db w))
                     /\ Ingredient._id i
                        = CocktailIngredient.ingredientId (row p)
                 | None => ~ ingredientExists
                               (CocktailIngredient.ingredientId (row p)) (db w)
                 end).
  { intro H. apply in_map_iff in H as (r & <- & Hr). unfold populate. simpl.
    split; [now apply L | ]. split.
    - destruct (find_cocktail (CocktailIngredient.cocktailId r) (db w))
        as [[_ (c & F)] | [X F]]; rewrite F; [ | exact X].
      apply find_some in F as [Hc Ec]. now apply N.eqb_eq in Ec.
    - destruct (find_ingredient (CocktailIngredient.ingredientId r) (db w))
        as [[_ (i & F)] | [X F]]; rewrite F; [ | exact X].
      apply find_some in F as [Hi Ei]. now apply N.eqb_eq in Ei. }
  destruct l as [| r l']; [intros [] | exact R].
Qed.

Lemma join_index_expands_references_witness :
  In margaritaTequila (cocktail_ingredients bar).
Proof.
  apply (join_index_expands_references None (Some tequilaId) (start bar)
           (mkPopulated margaritaTequila (Some margarita) (Some tequila))).
  simpl. left. reflexivity.
Defined.

(** ** Referential integrity *)

Lemma Referential_mono (s s' : Store) :
  (forall r, In r (cocktail_ingredients s') -> In r (cocktail_ingredients s)) ->
  (forall o, cocktailExists o s -> cocktailExists o s') ->
  (forall o, ingredientExists o s -> ingredientExists o s') ->
  Referential s -> Referential s'.
Proof.
  intros Hr Hc Hi R r Hin. destruct (R r (Hr r Hin)) as [C I].
  split; [now apply Hc | now apply Hi].
Qed.

Lemma invalid_id_leaves_world (id : string) (env : Env) (w : World) :
  isValid id = false ->
  snd (CocktailsController.destroy id w) = w
  /\ (forall data, snd (CocktailsController.update env id data w) = w)
  /\ snd (IngredientsController.destroy id w) = w
  /\ (forall patch, snd (IngredientsController.update env id patch w) = w)
  /\ snd (CocktailIngredientsController.destroy id w) = w
  /\ (forall data,
        snd (CocktailIngredientsController.update env id data w) = w).
Proof.
  intro V.
  unfold CocktailsController.destroy, CocktailsController.update,
    IngredientsController.destroy, IngredientsController.update,
    CocktailIngredientsController.destroy,
    CocktailIngredientsController.update.
  rewrite V. repeat split.
Qed.

(** In the model, where no store call fails, the writes below keep
    referential integrity whatever they answer. *)
Lemma referential_after_write (env : Env) (w : World) :
  Referential (db w) ->
  (forall data,
     Referential (db (snd (CocktailsController.store env data w))))
  /\ (forall id data,
        Referential (db (snd (CocktailsController.update env id data w))))
  /\ (forall id, Referential (db (snd (CocktailsController.destroy id w))))
  /\ (forall data,
        Referential (db (snd (IngredientsController.store env data w))))
  /\ (forall id patch,
        Referential (db (snd (IngredientsController.update env id patch w))))
  /\ (forall id, Referential (db (snd (IngredientsController.destroy id w))))
  /\ (forall data,
        Referential
          (db (snd (CocktailIngredientsController.store env data w))))
  /\ (forall id,
        Referential (db (snd (CocktailIngredientsController.destroy id w)))).
Proof.
  intro R. repeat match goal with |- _ /\ _ => split end.
  - intro data. rewrite cocktails_store_run.
    destruct (_ && _); [ | exact R].
    destruct (castString (CocktailsController.name data)) as [[n |] |];
      try exact R.
    destruct (castString (CocktailsController.category data)) as [[c |] |];
      try exact R.
    destruct (castString (CocktailsController.instructions data))
      as [[i |] |]; try exact R.
    simpl. apply (Referential_mono (db w)); simpl; auto.
    intros o (ck & Hc & E). exists ck. split; [ | exact E].
    simpl. apply in_or_app. now left.
  - intros id data. destruct (isValid id) eqn:V.
    + destruct (cast_defined id V) as (o & E).
      rewrite (cocktails_update_run env id o data w E).
      destruct (List.find _ (cocktails (db w))); [ | exact R]. simpl.
      apply (Referential_mono (db w)); simpl; auto.
      intros o'. rewrite !cocktailExists_iff. simpl.
      now rewrite map_updateFirst by reflexivity.
    + now rewrite (proj1 (proj2 (invalid_id_leaves_world id env w V))).
  - intro id. destruct (isValid id) eqn:V.
    + destruct (cast_defined id V) as (o & E).
      rewrite (cocktails_destroy_run id o w E).
      destruct (List.find _ (cocktails (db w))); [ | exact R]. simpl.
      intros r Hr. simpl in Hr. apply filter_In in Hr as [Hr Hne].
      apply negb_true_iff, N.eqb_neq in Hne.
      destruct (R r Hr) as [(c & Hc & Ec) I]. split; [ | exact I].
      exists c. split; [ | exact Ec]. simpl.
      apply removeFirst_keeps; [exact Hc | ]. apply N.eqb_neq. congruence.
    + now rewrite (proj1 (invalid_id_leaves_world id env w V)).
  - intro data. rewrite ingredients_store_run.
    destruct (_ && _); [ | exact R].
    destruct (castString (IngredientsController.name data)) as [[n |] |];
      try exact R.
    destruct (castString (IngredientsController.description data)) as [d |];
      try exact R.
    destruct (castString (IngredientsController.image data)) as [i' |];
      try exact R.
    simpl. apply (Referential_mono (db w)); simpl; auto.
    intros o (i & Hi & E). exists i. split; [ | exact E].
    simpl. apply in_or_app. now left.
  - intros id patch. destruct (isValid id) eqn:V.
    + destruct (cast_defined id V) as (o & E).
      rewrite (ingredients_update_run env id o patch w E).
      destruct (List.find _ (ingredients (db w))); [ | exact R]. simpl.
      apply (Referential_mono (db w)); simpl; auto.
      intros o'. rewrite !ingredientExists_iff. simpl.
      now rewrite map_updateFirst by reflexivity.
    + destruct (invalid_id_leaves_world id env w V) as (_ & _ & _ & H & _).
      now rewrite H.
  - intro id. destruct (isValid id) eqn:V.
    + destruct (cast_defined id V) as (o & E).
      rewrite (ingredients_destroy_run id o w E).
      destruct (List.find _ (ingredients (db w))); [ | exact R]. simpl.
      intros r Hr. simpl in Hr. apply filter_In in Hr as [Hr Hne].
      apply negb_true_iff, N.eqb_neq in Hne.
      destruct (R r Hr) as [C (i & Hi & Ei)]. split; [exact C | ].
      exists i. split; [ | exact Ei]. simpl.
      apply removeFirst_keeps; [exact Hi | ]. apply N.eqb_neq. congruence.
    + destruct (invalid_id_leaves_world id env w V) as (_ & _ & H & _).
      now rewrite H.
  - intro data. pose proof (join_store_run env data w) as S. simpl in S.
    rewrite S. clear S.
    destruct (negb _); [exact R | ].
    destruct (castObjectId _) as [co |]; [ | exact R].
    destruct (castObjectId _) as [io |]; [ | exact R].
    destruct (List.find _ (cocktails (db w))) as [c |] eqn:Fc; [ | exact R].
    destruct (List.find _ (ingredients (db w))) as [i |] eqn:Fi; [ | exact R].
    simpl. intros r Hr. simpl in Hr. apply in_app_or in Hr as [Hr | [<- | []]].
    + exact (R r Hr).
    + simpl. apply find_some in Fc as [Hc Ec], Fi as [Hi Ei].
      apply N.eqb_eq in Ec, Ei. split; [now exists c | now exists i].
  - intro id. destruct (isValid id) eqn:V.
    + destruct (cast_defined id V) as (o & E).
      rewrite (join_destroy_run id o w E).
      destruct (List.find _ (cocktail_ingredients (db w))); [ | exact R].
      simpl. apply (Referential_mono (db w)); simpl; auto.
      intros r. apply removeFirst_incl.
    + destruct (invalid_id_leaves_world id env w V) as (_ & _ & _ & _ & H & _).
      now rewrite H.
Qed.

(** X14: every write other than the update of a join row keeps
    referential integrity unless it ends in a 500: if every join row
    references a stored cocktail and a stored ingredient before, the same
    holds after a create, an update or a delete of a cocktail or an
    ingredient, and after a create or a delete of a join row, whenever the
    answer is not a server error. *)
Theorem referential_integrity_preserved (env : Env) (w : World) :
  Referential (db w) ->
  (forall data,
     status (fst (CocktailsController.store env data w)) <> 500%Z ->
     Referential (db (snd (CocktailsController.store env data w))))
  /\ (forall id patch,
        status (fst (CocktailsController.update env id patch w)) <> 500%Z ->
        Referential (db (snd (CocktailsController.update env id patch w))))
  /\ (forall id,
        status (fst (CocktailsController.destroy id w)) <> 500%Z ->
        Referential (db (snd (CocktailsController.destroy id w))))
  /\ (forall data,
        status (fst (IngredientsController.store env data w)) <> 500%Z ->
        Referential (db (snd (IngredientsController.store env data w))))
  /\ (forall id patch,
        status (fst (IngredientsController.update env id patch w)) <> 500%Z ->
        Referential (db (snd (IngredientsController.update env id patch w))))
  /\ (forall id,
        status (fst (IngredientsController.destroy id w)) <> 500%Z ->
        Referential (db (snd (IngredientsController.destroy id w))))
  /\ (forall data,
        status (fst (CocktailIngredientsController.store env data w))
        <> 500%Z ->
        Referential
          (db (snd (CocktailIngredientsController.store env data w))))
  /\ (forall id,
        status (fst (CocktailIngredientsController.destroy id w)) <> 500%Z ->
        Referential (db (snd (CocktailIngredientsController.destroy id w)))).
Proof.
  intro R.
  destruct (referential_after_write env w R)
    as (H1 & H2 & H3 & H4 & H5 & H6 & H7 & H8).
  repeat match goal with |- _ /\ _ => split end; intros; auto.
Qed.

Lemma bar_referential : Referential bar.
Proof.
  intros r Hr. simpl in Hr.
  destruct Hr as [<- | [<- | [<- | []]]]; split;
    first [ exists margarita; split; [simpl; tauto | reflexivity]
          | exists mojito; split; [simpl; tauto | reflexivity]
          | exists lime; split; [simpl; tauto | reflexivity]
          | exists tequila; split; [simpl; tauto | reflexivity] ].
Qed.

Lemma referential_integrity_preserved_witness :
  Referential (db (snd (IngredientsController.destroy tequilaId (start bar)))).
Proof.
  destruct (referential_integrity_preserved env0 (start bar) bar_referential)
    as (_ & _ & _ & _ & _ & T & _).
  apply T. vm_compute. discriminate.
Defined.

(** ** Unique identifiers *)

Lemma NoDup_map_filter {D B} (g : D -> B) (p : D -> bool) (l : list D) :
  NoDup (map g l) -> NoDup (map g (filter p l)).
Proof.
  induction l as [| a l IH]; simpl; intro N; [constructor | ].
  inversion N as [| ? ? Ha Hl]; subst.
  destruct (p a); simpl; [ | now apply IH].
  constructor; [ | now apply IH].
  intro H. apply Ha. apply in_map_iff in H as (x & E & Hx).
  apply in_map_iff. exists x. split; [exact E | ].
  now apply filter_In in Hx.
Qed.

Lemma NoDup_map_snoc {D B} (g : D -> B) (l : list D) (d : D) :
  NoDup (map g l) -> ~ In (g d) (map g l) -> NoDup (map g (l ++ [d])).
Proof.
  induction l as [| a l IH]; simpl; intros N F.
  - repeat constructor. intros [].
  - inversion N as [| ? ? Ha Hl]; subst. constructor.
    + rewrite map_app, in_app_iff. simpl. intros [H | [H | []]]; [tauto | ].
      apply F. now left.
    + apply IH; [exact Hl | ]. intro H. apply F. now right.
Qed.

Lemma joinExists_iff (o : ObjectId) (s : Store) :
  joinExists o s
  <-> In o (map CocktailIngredient._id (cocktail_ingredients s)).
Proof.
  unfold joinExists. rewrite in_map_iff. split; intros (c & H1 & H2);
    exists c; tauto.
Qed.

(** The update of a join row either leaves the store as it was or rewrites
    one row in place, keeping its identifier. *)
Lemma join_update_cases (env : Env) (id : string)
    (data : CocktailIngredientsController.Data) (w : World) :
  db (snd (CocktailIngredientsController.update env id data w)) = db w
  \/ exists p f,
       (forall r, CocktailIngredient._id (f r) = CocktailIngredient._id r)
       /\ db (snd (CocktailIngredientsController.update env id data w))
          = mkStore (cocktails (db w)) (ingredients (db w))
                    (updateFirst p f (cocktail_ingredients (db w))).
Proof.
  unfold CocktailIngredientsController.update.
  destruct (isValid id) eqn:V; simpl; [ | now left].
  destruct (cast_defined id V) as (o & E).
  unfold CocktailIngredientsController.castField.
  destruct data as [c i q]. simpl.
  destruct c as [c |]; [destruct (castObjectId c) as [co |] eqn:Ec | ];
    (destruct i as [i |]; [destruct (castObjectId i) as [io |] eqn:Ei | ]);
    run; rewrite ?Ec; simpl; rewrite ?Ei; simpl; try (now left);
    rewrite E; simpl;
    (destruct (List.find _ (cocktail_ingredients (db w))); simpl;
       [right; eexists; eexists; split; [ | reflexivity]; reflexivity
       | now left]).
Qed.

(** X15: no write ever makes two documents of a collection share an
    identifier.  If identifiers are unique before, they are unique after
    every update and every delete of the three resources, whatever the
    request; and after a create, provided the identifier the driver
    generates is not already used in that collection. *)
Theorem unique_ids_preserved (env : Env) (w : World) :
  UniqueIds (db w) ->
  (forall id data,
     UniqueIds (db (snd (CocktailsController.update env id data w))))
  /\ (forall id, UniqueIds (db (snd (CocktailsController.destroy id w))))
  /\ (forall id patch,
        UniqueIds (db (snd (IngredientsController.update env id patch w))))
  /\ (forall id, UniqueIds (db (snd (IngredientsController.destroy id w))))
  /\ (forall id data,
        UniqueIds
          (db (snd (CocktailIngredientsController.update env id data w))))
  /\ (forall id,
        UniqueIds (db (snd (CocktailIngredientsController.destroy id w))))
  /\ (~ cocktailExists (newId env) (db w) ->
      forall data,
        UniqueIds (db (snd (CocktailsController.store env data w))))
  /\ (~ ingredientExists (newId env) (db w) ->
      forall data,
        UniqueIds (db (snd (IngredientsController.store env data w))))
  /\ (~ joinExists (newId env) (db w) ->
      forall data,
        UniqueIds
          (db (snd (CocktailIngredientsController.store env data w)))).
Proof.
  intros (Uc & Ui & Ur).
  assert (U : UniqueIds (db w)) by (repeat split; assumption).
  repeat match goal with |- _ /\ _ => split end.
  - intros id data. destruct (isValid id) eqn:V.
    + destruct (cast_defined id V) as (o & E).
      rewrite (cocktails_update_run env id o data w E).
      destruct (List.find _ (cocktails (db w))); [ | exact U].
      repeat split; simpl; try assumption.
      now rewrite map_updateFirst by reflexivity.
    + now rewrite (proj1 (proj2 (invalid_id_leaves_world id env w V))).
  - intro id. destruct (isValid id) eqn:V.
    + destruct (cast_defined id V) as (o & E).
      rewrite (cocktails_destroy_run id o w E).
      destruct (List.find _ (cocktails (db w))); [ | exact U].
      repeat split; simpl; try assumption.
      * now apply NoDup_map_removeFirst.
      * now apply NoDup_map_filter.
    + now rewrite (proj1 (invalid_id_leaves_world id env w V)).
  - intros id patch. destruct (isValid id) eqn:V.
    + destruct (cast_defined id V) as (o & E).
      rewrite (ingredients_update_run env id o patch w E).
      destruct (List.find _ (ingredients (db w))); [ | exact U].
      repeat split; simpl; try assumption.
      now rewrite map_updateFirst by reflexivity.
    + destruct (invalid_id_leaves_world id env w V) as (_ & _ & _ & H & _).
      now rewrite H.
  - intro id. destruct (isValid id) eqn:V.
    + destruct (cast_defined id V) as (o & E).
      rewrite (ingredients_destroy_run id o w E).
      destruct (List.find _ (ingredients (db w))); [ | exact U].
      repeat split; simpl; try assumption.
      * now apply NoDup_map_removeFirst.
      * now apply NoDup_map_filter.
    + destruct (invalid_id_leaves_world id env w V) as (_ & _ & H & _).
      now rewrite H.
  - intros id data.
    destruct (join_update_cases env id data w) as [-> | (p & f & Hf & ->)];
      [exact U | ].
    repeat split; simpl; try assumption.
    now rewrite map_updateFirst by exact Hf.
  - intro id. destruct (isValid id) eqn:V.
    + destruct (cast_defined id V) as (o & E).
      rewrite (join_destroy_run id o w E).
      destruct (List.find _ (cocktail_ingredients (db w))); [ | exact U].
      repeat split; simpl; try assumption.
      now apply NoDup_map_removeFirst.
    + destruct (invalid_id_leaves_world id env w V) as (_ & _ & _ & _ & H & _).
      now rewrite H.
  - intros F data. rewrite cocktails_store_run.
    destruct (_ && _); [ | exact U].
    destruct (castString (CocktailsController.name data)) as [[n |] |];
      try exact U.
    destruct (castString (CocktailsController.category data)) as [[c |] |];
      try exact U.
    destruct (castString (CocktailsController.instructions data))
      as [[i |] |]; try exact U.
    repeat split; simpl; try assumption.
    apply NoDup_map_snoc; [exact Uc | ]. simpl.
    now rewrite <- cocktailExists_iff.
  - intros F data. rewrite ingredients_store_run.
    destruct (_ && _); [ | exact U].
    destruct (castString (IngredientsController.name data)) as [[n |] |];
      try exact U.
    destruct (castString (IngredientsController.description data)) as [d |];
      try exact U.
    destruct (castString (IngredientsController.image data)) as [i' |];
      try exact U.
    repeat split; simpl; try assumption.
    apply NoDup_map_snoc; [exact Ui | ]. simpl.
    now rewrite <- ingredientExists_iff.
  - intros F data. pose proof (join_store_run env data w) as S. simpl in S.
    rewrite S. clear S.
    destruct (negb _); [exact U | ].
    destruct (castObjectId _) as [co |]; [ | exact U].
    destruct (castObjectId _) as [io |]; [ | exact U].
    destruct (List.find _ (cocktails (db w))); [ | exact U].
    destruct (List.find _ (ingredients (db w))); [ | exact U].
    repeat split; simpl; try assumption.
    apply NoDup_map_snoc; [exact Ur | ]. simpl.
    now rewrite <- joinExists_iff.
Qed.

Lemma bar_unique : UniqueIds bar.
Proof.
  repeat split; simpl; repeat constructor; simpl; intuition discriminate.
Qed.

Lemma unique_ids_preserved_witness :
  UniqueIds (db (snd (CocktailsController.store env0
    (CocktailsController.mkData (JString "Daiquiri") (JString "Sour")
       (JString "Shake"))
    (start bar)))).
Proof.
  destruct (unique_ids_preserved env0 (start bar) bar_unique)
    as (_ & _ & _ & _ & _ & _ & T & _).
  apply T. intros (c & Hin & Hc). simpl in Hin.
  destruct Hin as [<- | [<- | []]]; vm_compute in Hc; discriminate Hc.
Defined.

(** ** Creating join rows *)

(** X16: the create of a join row checks its body in a fixed order and
    before any store call.  A missing or empty [cocktailId], [ingredientId]
    or [quantity] gives the "missing fields" 400; with all three present a
    malformed [cocktailId] gives the "invalid cocktail" 400 even when the
    [ingredientId] is malformed too; a malformed [ingredientId] is reported
    only when the [cocktailId] is well formed.  The world is unchanged in
    each case. *)
Theorem join_store_validation_order
    (env : Env) (data : CocktailIngredientsController.Data) (w : World) :
  let result := CocktailIngredientsController.store env data w in
  (absentOrFalsy (CocktailIngredientsController.cocktailId data)
   \/ absentOrFalsy (CocktailIngredientsController.ingredientId data)
   \/ absentOrFalsy (CocktailIngredientsController.quantity data) ->
   result = (badRequest (Message
     "Missing required fields: cocktailId, ingredientId, quantity"), w))
  /\
  (forall c i q,
     data = CocktailIngredientsController.mkData (Some c) (Some i) (Some q) ->
     c <> "" -> i <> "" -> q <> "" ->
     (~ Hex24 c ->
      result = (badRequest (Message "Invalid cocktail ID format"), w))
     /\ (Hex24 c -> ~ Hex24 i ->
         result = (badRequest (Message "Invalid ingredient ID format"), w))).
Proof.
  intro result. subst result.
  pose proof (join_store_run env data w) as S. simpl in S. rewrite S. clear S.
  split.
  - intro H.
    assert (E : present (CocktailIngredientsController.cocktailId data)
                && present (CocktailIngredientsController.ingredientId data)
                && present (CocktailIngredientsController.quantity data)
                = false).
    { rewrite !andb_false_iff. destruct H as [H | [H | H]];
        apply present_false in H; auto. }
    now rewrite E.
  - intros c i q -> Hc Hi Hq. unfold present. simpl.
    apply String.eqb_neq in Hc, Hi, Hq. rewrite Hc, Hi, Hq. simpl. split.
    + intro X. apply isValid_false in X. unfold castObjectId at 1.
      now rewrite X.
    + intros Xc Xi. apply isValid_spec in Xc. apply isValid_false in Xi.
      destruct (cast_defined c Xc) as (co & ->).
      unfold castObjectId. now rewrite Xi.
Qed.

Lemma join_store_validation_order_witness :
  CocktailIngredientsController.store env0
    (CocktailIngredientsController.mkData (Some "gin") (Some "tonic")
       (Some "1 oz")) (start bar)
  = (badRequest (Message "Invalid cocktail ID format"), start bar).
Proof.
  destruct (join_store_validation_order env0
              (CocktailIngredientsController.mkData (Some "gin") (Some "tonic")
                 (Some "1 oz")) (start bar)) as [_ T].
  destruct (T "gin" "tonic" "1 oz") as [T1 _];
    [reflexivity | discriminate | discriminate | discriminate | ].
  apply T1. intros [H _]. discriminate H.
Defined.

(** X17: nothing prevents duplicate pairs.  When a create of a join row
    succeeds, the same body submitted again succeeds again, and the
    collection then ends with two rows that carry the same [cocktailId],
    [ingredientId] and [quantity]. *)
Theorem join_store_allows_duplicates
    (env env' : Env) (data : CocktailIngredientsController.Data) (w : World) :
  status (fst (CocktailIngredientsController.store env data w)) = 201%Z ->
  let w1 := snd (CocktailIngredientsController.store env data w) in
  let result := CocktailIngredientsController.store env' data w1 in
  status (fst result) = 201%Z
  /\ exists r1 r2,
       cocktail_ingredients (db (snd result))
       = cocktail_ingredients (db w) ++ [r1; r2]
       /\ CocktailIngredient._id r1 = newId env
       /\ CocktailIngredient._id r2 = newId env'
       /\ CocktailIngredient.cocktailId r1 = CocktailIngredient.cocktailId r2
       /\ CocktailIngredient.ingredientId r1
          = CocktailIngredient.ingredientId r2
       /\ CocktailIngredient.quantity r1 = CocktailIngredient.quantity r2.
Proof.
  intros H w1 result. subst result w1. revert H.
  pose proof (join_store_run env' data
                (snd (CocktailIngredientsController.store env data w))) as S2.
  simpl in S2. rewrite S2. clear S2.
  pose proof (join_store_run env data w) as S. simpl in S. rewrite S. clear S.
  destruct (negb _); [discriminate | ].
  destruct (castObjectId _) as [co |]; [ | discriminate].
  destruct (castObjectId _) as [io |]; [ | discriminate].
  destruct (List.find _ (cocktails (db w))) as [c |] eqn:Fc; [ | discriminate].
  destruct (List.find _ (ingredients (db w))) as [i |] eqn:Fi;
    [ | discriminate].
  simpl. rewrite Fc, Fi. simpl. intros _. split; [reflexivity | ].
  eexists. eexists. rewrite <- app_assoc. simpl.
  split; [reflexivity | ]. repeat split.
Qed.

Lemma join_store_allows_duplicates_witness :
  status (fst (CocktailIngredientsController.store (mkEnv 200 501%N)
    (CocktailIngredientsController.mkData
       (Some mojitoId) (Some limeId) (Some "half"))
    (snd (CocktailIngredientsController.store env0
            (CocktailIngredientsController.mkData
               (Some mojitoId) (Some limeId) (Some "half")) (start bar)))))
  = 201%Z.
Proof.
  apply (join_store_allows_duplicates env0 (mkEnv 200 501%N)
           (CocktailIngredientsController.mkData
              (Some mojitoId) (Some limeId) (Some "half")) (start bar)).
  reflexivity.
Defined.

(** ** Link, then list *)

(** X18: once a join row has been created for a cocktail and an
    ingredient, the cocktail list filtered by that ingredient answers 200
    and contains the cocktail, and the list filtered by
    [isAlcoholic=true] contains it as well when the ingredient is flagged
    alcoholic. *)
Theorem join_store_then_listed
    (env : Env) (c i q : string) (w : World) :
  let stored :=
    CocktailIngredientsController.store env
      (CocktailIngredientsController.mkData (Some c) (Some i) (Some q)) w in
  status (fst stored) = 201%Z ->
  exists ck ing,
    In ck (cocktails (db w)) /\ In ing (ingredients (db w))
    /\ castObjectId c = Some (Cocktail._id ck)
    /\ castObjectId i = Some (Ingredient._id ing)
    /\ status (fst (CocktailsController.index (Some i) None None (snd stored)))
       = 200%Z
    /\ In ck (returned (fst (CocktailsController.index
                               (Some i) None None (snd stored))))
    /\ (Ingredient.isAlcoholic ing = true ->
        In ck (returned (fst (CocktailsController.index
                                None (Some "true") None (snd stored))))).
Proof.
  intro stored. subst stored.
  pose proof (join_store_run env
                (CocktailIngredientsController.mkData (Some c) (Some i)
                   (Some q)) w) as S.
  simpl in S. rewrite S. clear S.
  destruct (negb _) eqn:P; [discriminate | ].
  destruct (castObjectId c) as [co |] eqn:Ec; [ | discriminate].
  destruct (castObjectId i) as [io |] eqn:Ei; [ | discriminate].
  destruct (List.find _ (cocktails (db w))) as [ck |] eqn:Fc;
    [ | discriminate].
  destruct (List.find _ (ingredients (db w))) as [ing |] eqn:Fi;
    [ | discriminate].
  intros _. exists ck, ing.
  apply find_some in Fc as [Hc Eck], Fi as [Hi Eing].
  apply N.eqb_eq in Eck, Eing. subst co io.
  assert (I : i <> "") by (intros ->; apply cast_valid in Ei; discriminate).
  apply String.eqb_neq in I.
  repeat match goal with |- _ /\ _ => split end; try assumption;
    try reflexivity.
  - rewrite index_response. unfold indexResponse, ingredientStage.
    rewrite I, Ei. simpl. unfold cocktailListResponse.
    match goal with |- context [filter ?p ?l] =>
      assert (M : In ck (filter p l)) end.
    { apply filter_In. split; [exact Hc | ]. unfold matches. simpl.
      apply idIn_spec, nodup_In, in_map_iff. eexists.
      split; [ | unfold rowsOfIngredient; simpl; apply filter_In; split;
                 [apply in_or_app; right; left; reflexivity | ]].
      - reflexivity.
      - simpl. apply N.eqb_refl. }
    match goal with |- context [filter ?p ?l] =>
      destruct (filter p l); [destruct M | reflexivity] end.
  - rewrite index_response. unfold indexResponse, ingredientStage.
    rewrite I, Ei. simpl.
    rewrite (proj1 (returned_cocktailListResponse _)).
    apply filter_In. split; [exact Hc | ]. unfold matches. simpl.
    apply idIn_spec, nodup_In, in_map_iff. eexists.
    split; [ | unfold rowsOfIngredient; simpl; apply filter_In; split;
               [apply in_or_app; right; left; reflexivity | ]].
    + reflexivity.
    + simpl. apply N.eqb_refl.
  - intro A. rewrite index_response. unfold indexResponse. simpl.
    rewrite (proj1 (returned_cocktailListResponse _)).
    apply filter_In. split; [exact Hc | ]. unfold matches. simpl.
    apply idIn_spec, alcoholic_ids_spec. simpl.
    eexists. exists ing.
    split; [apply in_or_app; right; left; reflexivity | ].
    simpl. auto.
Qed.

Lemma join_store_then_listed_witness :
  exists ck,
    In ck (returned (fst (CocktailsController.index (Some tequilaId) None None
      (snd (CocktailIngredientsController.store env0
              (CocktailIngredientsController.mkData
                 (Some mojitoId) (Some tequilaId) (Some "1 oz"))
              (start bar)))))).
Proof.
  destruct (join_store_then_listed env0 mojitoId tequilaId "1 oz" (start bar))
    as (ck & ing & _ & _ & _ & _ & _ & H & _).
  - reflexivity.
  - exists ck. exact H.
Defined.

(** ** Cascade, then list *)

Lemma filter_none {A} (p : A -> bool) (l : list A) :
  (forall a, In a l -> p a = false) -> filter p l = [].
Proof.
  induction l as [| a l IH]; simpl; intro H; [reflexivity | ].
  rewrite (H a (or_introl eq_refl)). apply IH. intros b Hb. apply H. now right.
Qed.

(** X19: after a cocktail has been deleted with 200, the join list filtered
    by its identifier answers 404; after an ingredient has been deleted with
    200, the join list filtered by its identifier and the cocktail list
    filtered by it both answer 404. *)
Theorem destroy_then_lists_are_empty (id : string) (w : World) :
  (status (fst (CocktailsController.destroy id w)) = 200%Z ->
   status (fst (CocktailIngredientsController.index (Some id) None
                  (snd (CocktailsController.destroy id w)))) = 404%Z)
  /\
  (status (fst (IngredientsController.destroy id w)) = 200%Z ->
   status (fst (CocktailIngredientsController.index None (Some id)
                  (snd (IngredientsController.destroy id w)))) = 404%Z
   /\ status (fst (CocktailsController.index (Some id) None None
                     (snd (IngredientsController.destroy id w)))) = 404%Z).
Proof.
  destruct (isValid id) eqn:V.
  - destruct (cast_defined id V) as (o & E).
    assert (I : id <> "") by (intros ->; discriminate).
    apply String.eqb_neq in I. split.
    + rewrite (cocktails_destroy_run id o w E).
      destruct (List.find _ (cocktails (db w))); [ | discriminate].
      intros _. rewrite join_index_response.
      unfold joinIndexResponse, joinFilterStage. rewrite I, E. simpl.
      rewrite (filter_negb_filter
                 (fun r => (CocktailIngredient.cocktailId r =? o)%N)).
      match goal with |- context [filter ?p (filter ?q ?l)] =>
        now rewrite (filter_none p (filter q l)) by reflexivity end.
    + rewrite (ingredients_destroy_run id o w E).
      destruct (List.find _ (ingredients (db w))); [ | discriminate].
      intros _. split.
      * rewrite join_index_response.
        unfold joinIndexResponse, joinFilterStage. rewrite I, E. simpl.
        rewrite (filter_negb_filter
                   (fun r => (CocktailIngredient.ingredientId r =? o)%N)).
        match goal with |- context [filter ?p (filter ?q ?l)] =>
          now rewrite (filter_none p (filter q l)) by reflexivity end.
      * rewrite index_response.
        unfold indexResponse, ingredientStage, rowsOfIngredient.
        rewrite I, E. simpl.
        rewrite (filter_negb_filter
                   (fun r => (CocktailIngredient.ingredientId r =? o)%N)).
        simpl.
        match goal with |- context [filter ?p (cocktails ?s)] =>
          now rewrite (filter_none p (cocktails s)) by reflexivity end.
  - unfold CocktailsController.destroy, IngredientsController.destroy.
    rewrite V. split; discriminate.
Qed.

Lemma destroy_then_lists_are_empty_witness :
  status (fst (CocktailIngredientsController.index (Some margaritaId) None
                 (snd (CocktailsController.destroy margaritaId (start bar)))))
  = 404%Z.
Proof.
  destruct (destroy_then_lists_are_empty margaritaId (start bar)) as [T _].
  apply T. reflexivity.
Defined.

(** ** Updating a join row without breaking a reference *)

Lemma In_updateFirst {D} (p : D -> bool) (f : D -> D) (l : list D) (x : D) :
  In x (updateFirst p f l) -> In x l \/ exists d, In d l /\ x = f d.
Proof.
  induction l as [| a l IH]; simpl; [tauto | ].
  destruct (p a); simpl.
  - intros [<- | H]; [right; exists a; auto | left; now right].
  - intros [<- | H]; [left; now left | ].
    destruct (IH H) as [H' | (d & Hd & ->)]; [left; now right | ].
    right. exists d. auto.
Qed.

(** An update of a join row that writes identifiers of stored documents
    only keeps referential integrity. *)
Lemma join_update_with_stored_ids
    (env : Env) (id : string) (data : CocktailIngredientsController.Data)
    (w : World) :
  Referential (db w) ->
  (forall c o,
     CocktailIngredientsController.cocktailId data = Some c ->
     castObjectId c = Some o -> cocktailExists o (db w)) ->
  (forall i o,
     CocktailIngredientsController.ingredientId data = Some i ->
     castObjectId i = Some o -> ingredientExists o (db w)) ->
  Referential (db (snd (CocktailIngredientsController.update env id data w))).
Proof.
  intros R Hc Hi.
  assert (Step : forall nc ni q,
            (forall o, nc = Some o -> cocktailExists o (db w)) ->
            (forall o, ni = Some o -> ingredientExists o (db w)) ->
            forall p,
              Referential
                (mkStore (cocktails (db w)) (ingredients (db w))
                   (updateFirst p
                      (CocktailIngredientsController.assign env nc ni q)
                      (cocktail_ingredients (db w))))).
  { intros nc ni q Xc Xi p r Hr. simpl in Hr.
    apply In_updateFirst in Hr as [Hr | (d & Hd & ->)]; [exact (R r Hr) | ].
    destruct (R d Hd) as [C I]. simpl. split.
    - destruct nc as [o |]; [now apply Xc | exact C].
    - destruct ni as [o |]; [now apply Xi | exact I]. }
  unfold CocktailIngredientsController.update.
  destruct (isValid id) eqn:V; simpl; [ | exact R].
  destruct (cast_defined id V) as (o & E).
  unfold CocktailIngredientsController.castField.
  destruct data as [c i q]. simpl in *.
  destruct c as [c |]; [destruct (castObjectId c) as [co |] eqn:Ec | ];
    (destruct i as [i |]; [destruct (castObjectId i) as [io |] eqn:Ei | ]);
    run; rewrite ?Ec; simpl; rewrite ?Ei; simpl; try exact R;
    rewrite E; simpl;
    (destruct (List.find _ (cocktail_ingredients (db w))); simpl;
       [ | exact R]);
    apply Step; intros o' [= <-]; eauto.
Qed.

(** X20: the update of a join row keeps referential integrity whenever
    each of [cocktailId] and [ingredientId] is either missing from the body
    or a well-formed identifier string of a stored document; in particular
    an update whose body has neither of the two keys (a change of
    [quantity] only) always keeps it. *)
Theorem join_update_keeps_integrity
    (env : Env) (id : string) (data : CocktailIngredientsController.Data)
    (w : World) :
  Referential (db w) ->
  (forall c,
     CocktailIngredientsController.cocktailId data = Some c ->
     exists o, castObjectId c = Some o /\ cocktailExists o (db w)) ->
  (forall i,
     CocktailIngredientsController.ingredientId data = Some i ->
     exists o, castObjectId i = Some o /\ ingredientExists o (db w)) ->
  Referential (db (snd (CocktailIngredientsController.update env id data w))).
Proof.
  intros R Hc Hi. apply join_update_with_stored_ids; [exact R | | ].
  - intros c o Ec Eo. destruct (Hc c Ec) as (o' & Eo' & X). congruence.
  - intros i o Ei Eo. destruct (Hi i Ei) as (o' & Eo' & X). congruence.
Qed.

Lemma join_update_keeps_integrity_witness :
  Referential
    (db (snd (CocktailIngredientsController.update env0
                "000000000000000000000065"
                (CocktailIngredientsController.mkData None None (Some "3 oz"))
                (start bar)))).
Proof.
  apply (join_update_keeps_integrity env0 "000000000000000000000065"
           (CocktailIngredientsController.mkData None None (Some "3 oz"))
           (start bar) bar_referential); discriminate.
Defined.
